(** * apns.cpp: the APNs push client, its wire frames and its feedback drain

    A shallow embedding of [src/apns/apns.cpp].  Memory is modelled as
    lists of bytes, C integers as [Z] with their wrap-around written out,
    and what the C++ text leaves to the platform (byte order of the host,
    signedness of plain [char], what lies behind an array that is read
    past its end) are fields of a [Target].
    The OpenSSL session is a small state record; code that can throw
    returns an [outcome]. *)

From Stdlib Require Import String DecimalString ZArith List Bool Lia.
From coqutil Require Import Byte Word.LittleEndianList.
Import ListNotations.
Local Open Scope Z_scope.

(** ** Platform *)

(** What the compiler and the machine decide for the program: whether
    the host stores integers least-significant byte first, whether plain
    [char] is a signed type, and what lies in memory behind the array
    [tmp] of [Str2Hex], which has no room for a terminator: the bytes that
    follow [tmp] up to the first NUL, while [szLen] holds a given value
    and the local [ch] a given value ([None]: nothing assigned yet). *)
Record Target : Type := mkTarget {
  little_endian : bool;
  char_is_signed : bool;
  behind_tmp : nat -> option Z -> list byte
}.

(** The layout in which the four bytes of [ch] follow [tmp], an
    unassigned [ch] beginning with a NUL. *)
Definition ch_behind_tmp (le : bool) (szLen : nat) (ch : option Z)
  : list byte :=
  match ch with
  | None => []
  | Some v => if le then le_split 4 v else rev (le_split 4 v)
  end.

Definition x86_64_linux : Target := mkTarget true true (ch_behind_tmp true).
Definition aarch64_linux : Target := mkTarget true false (ch_behind_tmp true).
Definition sparc_solaris : Target := mkTarget false true (ch_behind_tmp false).
Definition ppc_linux : Target := mkTarget false false (ch_behind_tmp false).

(** ** Text and bytes *)

(** The contents of a [std::string] or of a [char] array. *)
Definition text : Type := list byte.

Definition txt (s : string) : text := list_byte_of_string s.

Definition is_nul (c : byte) : bool := Z.eqb (byte.unsigned c) 0.

(** What a reader of a C string sees from a pointer into [mem]: the bytes
    before the first NUL (as [%s], and the [string] constructor and
    [append] taking a character pointer, do). *)
Fixpoint c_str (mem : list byte) : text :=
  match mem with
  | [] => []
  | c :: rest => if is_nul c then [] else c :: c_str rest
  end.

(** ** Fixed-width integers *)

Definition uint16_t (v : Z) : Z := v mod 2 ^ 16.
Definition uint32_t (v : Z) : Z := v mod 2 ^ 32.

(** [memcpy(ptr, &v, n)] from an n-byte unsigned integer object. *)
Definition store (t : Target) (n : nat) (v : Z) : list byte :=
  if little_endian t then le_split n v else rev (le_split n v).

(** [memcpy(&v, ptr, n)] into an n-byte unsigned integer object. *)
Definition load (t : Target) (bs : list byte) : Z :=
  if little_endian t then le_combine bs else le_combine (rev bs).

(** The value whose bytes are those of [v] in reverse order. *)
Definition bswap (n : nat) (v : Z) : Z := le_combine (rev (le_split n v)).

Definition htonl (t : Target) (v : Z) : Z :=
  if little_endian t then bswap 4 v else uint32_t v.
Definition ntohl (t : Target) (v : Z) : Z := htonl t v.
Definition htons (t : Target) (v : Z) : Z :=
  if little_endian t then bswap 2 v else uint16_t v.

(** Big-endian (network order) bytes of a value, and the value of
    big-endian bytes: the wire format the frames are compared with. *)
Definition be_bytes (n : nat) (v : Z) : list byte := rev (le_split n v).
Definition be_value (bs : list byte) : Z := le_combine (rev bs).

(** ** printf and scanf conversions *)

Definition hex_digit (d : Z) : byte :=
  nth (Z.to_nat d) (txt "0123456789abcdef") Byte.x30.

Fixpoint drop_zeros (ds : list Z) : list Z :=
  match ds with
  | [] => []
  | d :: rest => if Z.eqb d 0 then drop_zeros rest else ds
  end.

(** [%x] of an [unsigned int]: lower-case digits, no leading zeros. *)
Definition fmt_x (v : Z) : text :=
  let nibble i := Z.land (Z.shiftr (uint32_t v) (4 * i)) 15 in
  match drop_zeros (map nibble [7; 6; 5; 4; 3; 2; 1; 0]) with
  | [] => [hex_digit 0]
  | ds => map hex_digit ds
  end.

(** [%d] of an [int]. *)
Definition fmt_d (v : Z) : text :=
  list_byte_of_string (NilZero.string_of_int (Z.to_int v)).

(** [snprintf(buf, size, ...)] where the conversions produce [out]: the
    characters stored in [buf]; a NUL follows them ([size] is at least 1). *)
Definition snprintf (size : nat) (out : text) : text := firstn (size - 1) out.

(** A [char] passed through the variadic [...]: promoted to [int], then
    read by [%x] as an [unsigned int]. *)
Definition char_as_unsigned (t : Target) (c : byte) : Z :=
  let u := byte.unsigned c in
  if char_is_signed t && (128 <=? u) then uint32_t (u - 256) else u.

Definition isspace (c : byte) : bool :=
  let u := byte.unsigned c in (u =? 32) || ((9 <=? u) && (u <=? 13)).

Definition hex_value (c : byte) : option Z :=
  let u := byte.unsigned c in
  if (48 <=? u) && (u <=? 57) then Some (u - 48)
  else if (97 <=? u) && (u <=? 102) then Some (u - 87)
  else if (65 <=? u) && (u <=? 70) then Some (u - 55)
  else None.

Definition is_hex (c : byte) : bool :=
  match hex_value c with Some _ => true | None => false end.

Fixpoint skip_space (s : text) : text :=
  match s with
  | c :: rest => if isspace c then skip_space rest else s
  | [] => []
  end.

Fixpoint hex_run (s : text) (acc : Z) : Z :=
  match s with
  | c :: rest =>
      match hex_value c with
      | Some d => hex_run rest (16 * acc + d)
      | None => acc
      end
  | [] => acc
  end.

(** [sscanf(s, "%x", &ch)] on the C string [s]: [Some v] when a number is
    converted and stored, [None] when nothing is stored (input or
    matching failure; [ch] keeps what it held).  White space, a sign and
    a [0x] prefix are accepted before the digits. *)
Definition sscanf_x (s : text) : option Z :=
  let s1 := skip_space s in
  let '(neg, s2) :=
    match s1 with
    | c :: rest =>
        if byte.unsigned c =? 45 then (true, rest)
        else if byte.unsigned c =? 43 then (false, rest)
        else (false, s1)
    | [] => (false, [])
    end in
  let s3 :=
    match s2 with
    | z :: x :: h :: rest =>
        if (byte.unsigned z =? 48)
           && ((byte.unsigned x =? 120) || (byte.unsigned x =? 88))
           && is_hex h
        then h :: rest else s2
    | _ => s2
    end in
  match s3 with
  | c :: _ =>
      if is_hex c
      then Some (uint32_t (if neg then - hex_run s3 0 else hex_run s3 0))
      else None
  | [] => None
  end.

(** ** Apns::Hex2Str (lines 104-113) *)

(** [None] stands for behaviour the language leaves undefined (here:
    [buf[i]] read outside [buf]).  Each round formats [buf[i]] with [%x]
    into the two-byte array [ch], so one character and the NUL are stored,
    and appends the C string in [ch]. *)
Fixpoint Hex2Str (t : Target) (buf : list byte) (len : nat) {struct len}
  : option text :=
  match len with
  | O => Some []
  | S n =>
      match buf with
      | [] => None
      | b :: rest =>
          let ch := snprintf 2 (fmt_x (char_as_unsigned t b)) ++ [Byte.x00] in
          option_map (app (c_str ch)) (Hex2Str t rest n)
      end
  end.

(** ** Apns::Str2Hex (lines 115-128) *)

(** The loop of [Str2Hex], which runs while [str] points at a character
    other than NUL and [szLen--] is not zero.  [mem] is the storage
    from [str] on (the string's characters and its terminator); [ch] is
    [None] while the local [ch] has never been assigned.  The result lists
    the bytes stored through [buf++].  [tmp] holds the two characters and
    no terminator, so [sscanf] reads on behind it: it scans the two
    characters followed by what the target has behind [tmp] in this
    round, up to the first NUL. *)
Fixpoint Str2Hex_loop (t : Target) (mem : list byte) (szLen : nat)
    (ch : option Z) : option (list byte) :=
  match mem with
  | [] => None
  | c0 :: mem1 =>
      if is_nul c0 then Some []
      else
        match szLen with
        | O => Some []
        | S n =>
            match mem1 with
            | [] => None
            | c1 :: mem2 =>
                let ch' :=
                  match sscanf_x (c_str ([c0; c1] ++ behind_tmp t n ch)) with
                  | Some v => Some v
                  | None => ch
                  end in
                match ch' with
                | None => None
                | Some v =>
                    option_map (cons (byte.of_Z v))
                               (Str2Hex_loop t mem2 n ch')
                end
            end
        end
  end.

(** [Str2Hex(str.c_str(), buf, szLen)]: the contents of [buf] afterwards,
    zero-filled by the [memset] and then overwritten from the front. *)
Definition Str2Hex (t : Target) (str : text) (szLen : nat)
  : option (list byte) :=
  option_map
    (fun stored => stored ++ repeat Byte.x00 (szLen - length stored))
    (Str2Hex_loop t (str ++ [Byte.x00]) szLen None).

(** ** Apns::ConstructAps (lines 130-140) *)

(** The double quote of the format string. *)
Definition dq : byte := Byte.x22.

(** The output of the format string of [ConstructAps] for the three
    arguments: the fixed text with [%s], [%d] and [%s] filled in. *)
Definition aps_format (body : text) (badge : Z) (sound : text) : text :=
  txt "{" ++ [dq] ++ txt "aps" ++ [dq] ++ txt ": {"
  ++ [dq] ++ txt "alert" ++ [dq] ++ txt ": " ++ [dq] ++ body ++ [dq]
  ++ txt "," ++ [dq] ++ txt "badge" ++ [dq] ++ txt ": " ++ fmt_d badge
  ++ txt "," ++ [dq] ++ txt "sound" ++ [dq] ++ txt ": " ++ [dq] ++ sound ++ [dq]
  ++ txt "}}".

Definition ConstructAps (body : text) (badge : Z) (sound : text) : text :=
  let buf :=
    snprintf 256 (aps_format (c_str (body ++ [Byte.x00])) badge
                             (c_str (sound ++ [Byte.x00])))
    ++ [Byte.x00] in
  c_str buf.

(** ** Exceptions and outcomes *)

(** Modelled from the spec: the class [Exception] of [exception.hpp],
    which is not among the sources.  [THROW_EXCEPTION] builds its message
    from the error code and the line of the failing assertion; the
    exception is kept as those two values. *)
Inductive Exception : Type :=
| SslError (code : Z) (line : Z).

(** How a call ends: it returns a value, it throws, or it runs into
    behaviour the language leaves undefined. *)
Inductive outcome (A : Type) : Type :=
| Returned (a : A)
| Thrown (e : Exception)
| Undefined.
Arguments Returned {A} a.
Arguments Thrown {A} e.
Arguments Undefined {A}.

(** ** The OpenSSL session *)

(** A failing I/O call returns zero or a negative value. *)
Inductive failure : Type := ReturnsZero | ReturnsNegative.

Definition failure_ret (f : failure) : Z :=
  match f with ReturnsZero => 0 | ReturnsNegative => -1 end.

(** The state behind [ssl_]: the decrypted bytes of the current record
    that wait to be read (what [SSL_pending] counts), the thread's error
    queue, what has been written, and the condition of the transport:
    [None] when it works, [Some (f, codes)] when every read and write
    fails the way [f] says after queuing [codes]. *)
Record Ssl : Type := mkSsl {
  ssl_pending : list byte;
  ssl_errors : list Z;
  ssl_fault : option (failure * list Z);
  ssl_sent : list byte
}.

Definition SSL_pending (w : Ssl) : Z := Z.of_nat (length (ssl_pending w)).

Definition SSL_write (w : Ssl) (data : list byte) : Z * Ssl :=
  match ssl_fault w with
  | None =>
      (Z.of_nat (length data),
       mkSsl (ssl_pending w) (ssl_errors w) (ssl_fault w) (ssl_sent w ++ data))
  | Some (f, codes) =>
      (failure_ret f,
       mkSsl (ssl_pending w) (ssl_errors w ++ codes) (ssl_fault w) (ssl_sent w))
  end.

(** [SSL_read(ssl_, buf, num)]: the return value, the bytes stored at the
    front of [buf], and the session afterwards. *)
Definition SSL_read (w : Ssl) (num : nat) : Z * list byte * Ssl :=
  match ssl_fault w with
  | None =>
      let data := firstn num (ssl_pending w) in
      (Z.of_nat (length data), data,
       mkSsl (skipn num (ssl_pending w)) (ssl_errors w) (ssl_fault w) (ssl_sent w))
  | Some (f, codes) =>
      (failure_ret f, [],
       mkSsl (ssl_pending w) (ssl_errors w ++ codes) (ssl_fault w) (ssl_sent w))
  end.

(** [ERR_get_error()]: the earliest code of the queue, removed from it,
    or zero when the queue is empty. *)
Definition ERR_get_error (w : Ssl) : Z * Ssl :=
  match ssl_errors w with
  | [] => (0, w)
  | code :: rest =>
      (code, mkSsl (ssl_pending w) rest (ssl_fault w) (ssl_sent w))
  end.

(** The macro [ASSERT_SSL(cond)] (lines 25-36) at [line]: when [cond]
    holds, the loop asks for an error code and throws from its body if the
    code is not zero; with no code queued the loop is not entered and the
    macro falls through. *)
Definition ASSERT_SSL (line : Z) (cond : bool) (w : Ssl)
  : option Exception * Ssl :=
  if cond then
    let '(code, w') := ERR_get_error w in
    if code =? 0 then (None, w') else (Some (SslError code line), w')
  else (None, w).

(** ** Apns::PushMessage (lines 142-186) *)

(** The bytes laid out in [buf] between [buf] and [ptr] (lines 154-180),
    for the token bytes and the payload text. *)
Definition notification_frame (t : Target) (now : Z) (token : list byte)
    (aps : text) : list byte :=
  let command := 1 in
  let id := uint32_t now in
  let expiry := htonl t (id + 86400) in
  let tokenlen := htons t 32 in
  let payloadlen := htons t (Z.of_nat (length aps)) in
  store t 1 command ++ store t 4 id ++ store t 4 expiry
  ++ store t 2 tokenlen ++ token ++ store t 2 payloadlen ++ aps.

(** The buffer handed to [SSL_write]; [now] is what [time(NULL)] returns.
    [None] when [Str2Hex] has no defined behaviour on the token. *)
Definition PushMessage_frame (t : Target) (now : Z) (deviceToken body : text)
    (badge : Z) (sound : text) : option (list byte) :=
  match Str2Hex t deviceToken 32 with
  | None => None
  | Some token =>
      Some (notification_frame t now token (ConstructAps body badge sound))
  end.

Definition PushMessage (t : Target) (now : Z) (w : Ssl)
    (deviceToken body : text) (badge : Z) (sound : text)
  : outcome Z * Ssl :=
  match PushMessage_frame t now deviceToken body badge sound with
  | None => (Undefined, w)
  | Some frame =>
      let '(ret, w1) := SSL_write w frame in
      match ASSERT_SSL 183 (ret <=? 0) w1 with
      | (Some e, w2) => (Thrown e, w2)
      | (None, w2) => (Returned ret, w2)
      end
  end.

(** ** Apns::FeedBack (lines 189-219) *)

(** Modelled from the spec: the struct [ApnsFeedback] of [apns.h], which
    is not among the sources: a feedback record holds the timestamp, the
    token length and the token's rendering. *)
Record ApnsFeedback : Type := mkFeedback {
  tm : Z;
  len : Z;
  token : text
}.

(** Size of the local [buf] of [FeedBack]. *)
Definition feedback_buf_size : nat := 38.

(** Lines 201-216: the record decoded from the 38 bytes of [buf]. *)
Definition FeedBack_decode (t : Target) (buf : list byte)
  : option ApnsFeedback :=
  let tm := ntohl t (load t (firstn 4 buf)) in
  let ptr := skipn 4 buf in
  let len := load t (firstn 2 ptr) in
  let ptr := skipn 2 ptr in
  let len := uint16_t (ntohl t len) in
  option_map (mkFeedback tm len) (Hex2Str t ptr (Z.to_nat len)).

(** The [while (1)] loop, [fuel] rounds of it at most: [None] when the
    rounds do not suffice.  [feedbacks] is the caller's vector, which
    keeps what was pushed also when the call throws. *)
Fixpoint FeedBack (fuel : nat) (t : Target) (w : Ssl)
    (feedbacks : list ApnsFeedback)
  : option (outcome unit * list ApnsFeedback * Ssl) :=
  match fuel with
  | O => None
  | S fuel' =>
      let num := SSL_pending w in
      if Z.of_nat feedback_buf_size >=? num
      then Some (Returned tt, feedbacks, w)
      else
        let '(ret, data, w1) := SSL_read w feedback_buf_size in
        let buf := data ++ repeat Byte.x00 (feedback_buf_size - length data) in
        match ASSERT_SSL 200 (ret <=? 0) w1 with
        | (Some e, w2) => Some (Thrown e, feedbacks, w2)
        | (None, w2) =>
            match FeedBack_decode t buf with
            | None => Some (Undefined, feedbacks, w2)
            | Some feedback => FeedBack fuel' t w2 (feedbacks ++ [feedback])
            end
        end
  end.

(** ** Reading frames, and the inputs used in examples *)

(** The [n] bytes of a frame from offset [off] on (offsets count from 0). *)
Definition field (off n : nat) (frame : list byte) : list byte :=
  firstn n (skipn off frame).

Definition hex_digit_value (c : byte) : Z :=
  match hex_value c with Some d => d | None => 0 end.

(** A string made of pairs of hex digits, and the bytes it denotes, one
    for each pair. *)
Fixpoint is_hex_string (s : text) : bool :=
  match s with
  | [] => true
  | c0 :: c1 :: rest => is_hex c0 && is_hex c1 && is_hex_string rest
  | _ => false
  end.

Fixpoint hex_pairs (s : text) : list byte :=
  match s with
  | c0 :: c1 :: rest =>
      byte.of_Z (16 * hex_digit_value c0 + hex_digit_value c1) :: hex_pairs rest
  | _ => []
  end.

(** A string of whole pairs of characters none of which is NUL, and a
    string that is empty or begins with a hex digit. *)
Fixpoint nul_free_pairs (s : text) : bool :=
  match s with
  | [] => true
  | c0 :: c1 :: rest =>
      negb (is_nul c0) && negb (is_nul c1) && nul_free_pairs rest
  | _ => false
  end.

Definition starts_with_hex (s : text) : bool :=
  match s with
  | [] => true
  | c :: _ => is_hex c
  end.

(** The token 01 02 ... 20 in hex, and its 32 bytes. *)
Definition sample_token_hex : text :=
  txt "0102030405060708090a0b0c0d0e0f101112131415161718191a1b1c1d1e1f20".

Definition sample_token_bytes : list byte :=
  map (fun i => byte.of_Z (Z.of_nat i)) (seq 1 32).

(** A feedback frame as read into [buf]: timestamp 00 00 00 0A, token
    length 00 02, token AB CD, the rest of the 38 bytes zero. *)
Definition sample_feedback_buf : list byte :=
  [Byte.x00; Byte.x00; Byte.x00; Byte.x0a; Byte.x00; Byte.x02;
   Byte.xab; Byte.xcd] ++ repeat Byte.x00 30.

(** A session whose transport works, with nothing pending or queued. *)
Definition healthy_session : Ssl := mkSsl [] [] None [].

(** A session whose peer is gone: I/O calls fail as [f] says and queue
    no error code. *)
Definition dead_session (f : failure) : Ssl := mkSsl [] [] (Some (f, [])) [].

(** ** What the two conversions amount to *)

(** The one character [Hex2Str] appends for a byte: the first digit [%x]
    prints for it. *)
Definition Hex2Str_char (t : Target) (b : byte) : byte :=
  let u := byte.unsigned b in
  if char_is_signed t && (128 <=? u) then hex_digit 15
  else if 16 <=? u then hex_digit (u / 16)
  else hex_digit u.

(** A character with which no [%x] number can start: not a hex digit,
    not white space, not a sign. *)
Definition unscannable (c : byte) : bool :=
  negb (is_hex c) && negb (isspace c)
  && negb (byte.unsigned c =? 45) && negb (byte.unsigned c =? 43).

(** ** Macro ASSERT_SYSTEM (lines 16-23) and the set-up calls *)

(** The library calls whose result the constructor and [Conn] test. *)
Inductive libcall : Type :=
| TLSv1_method
| SSL_CTX_new
| SSL_CTX_use_certificate_file
| SSL_CTX_use_PrivateKey_file
| SSL_CTX_check_private_key
| gethostbyname
| socket
| connect
| SSL_new
| SSL_set_fd
| SSL_connect.

(** How the libraries answer: which calls report failure, the codes a
    failing OpenSSL call puts on the error queue, and [errno]. *)
Record Library : Type := mkLibrary {
  lib_fails : libcall -> bool;
  lib_codes : libcall -> list Z;
  lib_errno : Z
}.

(** The members of an [Apns] object: whether [ctx_] and [ssl_] are
    non-null and [sock_] is a descriptor (not -1). *)
Record ApnsObject : Type := mkApns {
  ctx_ : bool;
  ssl_ : bool;
  sock_ : bool
}.

(** What the set-up code throws: the exception of [ASSERT_SSL], or the
    one of [ASSERT_SYSTEM], kept as [errno] and the line. *)
Inductive SetupException : Type :=
| OfSsl (e : Exception)
| SystemError (code : Z) (line : Z).

(** How the constructor ends: it returns; it throws, with the members as
    they are at the throw (the destructor of an object whose constructor
    throws is not run); or, after an OpenSSL failure that threw nothing,
    it passes the null result on to the call at [line]. *)
Inductive construction : Type :=
| Constructed (a : ApnsObject)
| ConstructionThrew (e : SetupException) (a : ApnsObject)
| NullHandlePassed (line : Z) (a : ApnsObject).

(** [ASSERT_SYSTEM(cond)] at [line]: throws whenever [cond] holds. *)
Definition ASSERT_SYSTEM (line : Z) (cond : bool) (errno : Z)
  : option SetupException :=
  if cond then Some (SystemError errno line) else None.

(** An OpenSSL call [c] with [ASSERT_SSL] on its failure at [line]: the
    exception if one is thrown, whether the call succeeded, the queue. *)
Definition ssl_step (lib : Library) (c : libcall) (line : Z) (w : Ssl)
  : option Exception * bool * Ssl :=
  if lib_fails lib c then
    let w1 := mkSsl (ssl_pending w) (ssl_errors w ++ lib_codes lib c)
                    (ssl_fault w) (ssl_sent w) in
    let '(e, w2) := ASSERT_SSL line true w1 in
    (e, false, w2)
  else
    let '(e, w2) := ASSERT_SSL line false w in
    (e, true, w2).

(** ** Apns::Conn (lines 85-101) *)

(** The bytes of [addr.sin_port] after [addr.sin_port = htons(port)]. *)
Definition Conn_sin_port (t : Target) (port : Z) : list byte :=
  store t 2 (htons t port).

Definition Conn (lib : Library) (w : Ssl) (a : ApnsObject)
  : construction * Ssl :=
  match ASSERT_SYSTEM 90 (lib_fails lib gethostbyname) (lib_errno lib) with
  | Some e => (ConstructionThrew e a, w)
  | None =>
  let a := mkApns (ctx_ a) (ssl_ a) (negb (lib_fails lib socket)) in
  match ASSERT_SYSTEM 95 (lib_fails lib socket) (lib_errno lib) with
  | Some e => (ConstructionThrew e a, w)
  | None =>
  match ASSERT_SYSTEM 96 (lib_fails lib connect) (lib_errno lib) with
  | Some e => (ConstructionThrew e a, w)
  | None =>
  match ssl_step lib SSL_new 98 w with
  | (Some e, ok, w1) =>
      (ConstructionThrew (OfSsl e) (mkApns (ctx_ a) ok (sock_ a)), w1)
  | (None, false, w1) =>
      (NullHandlePassed 99 (mkApns (ctx_ a) false (sock_ a)), w1)
  | (None, true, w1) =>
  let a := mkApns (ctx_ a) true (sock_ a) in
  match ssl_step lib SSL_set_fd 99 w1 with
  | (Some e, _, w2) => (ConstructionThrew (OfSsl e) a, w2)
  | (None, _, w2) =>
  match ssl_step lib SSL_connect 100 w2 with
  | (Some e, _, w3) => (ConstructionThrew (OfSsl e) a, w3)
  | (None, _, w3) => (Constructed a, w3)
  end end end end end end.

(** ** Apns::Apns (lines 49-68) *)

Definition Apns (lib : Library) (w : Ssl) : construction * Ssl :=
  let a := mkApns false false false in
  match ssl_step lib TLSv1_method 57 w with
  | (Some e, _, w1) => (ConstructionThrew (OfSsl e) a, w1)
  | (None, false, w1) => (NullHandlePassed 58 a, w1)
  | (None, true, w1) =>
  match ssl_step lib SSL_CTX_new 59 w1 with
  | (Some e, ok, w2) => (ConstructionThrew (OfSsl e) (mkApns ok false false), w2)
  | (None, false, w2) => (NullHandlePassed 60 a, w2)
  | (None, true, w2) =>
  let a := mkApns true false false in
  match ssl_step lib SSL_CTX_use_certificate_file 63 w2 with
  | (Some e, _, w3) => (ConstructionThrew (OfSsl e) a, w3)
  | (None, _, w3) =>
  match ssl_step lib SSL_CTX_use_PrivateKey_file 64 w3 with
  | (Some e, _, w4) => (ConstructionThrew (OfSsl e) a, w4)
  | (None, _, w4) =>
  match ssl_step lib SSL_CTX_check_private_key 65 w4 with
  | (Some e, _, w5) => (ConstructionThrew (OfSsl e) a, w5)
  | (None, _, w5) => Conn lib w5 a
  end end end end end.

(** ** Apns::~Apns (lines 70-83) *)

Inductive release : Type :=
| do_SSL_shutdown
| do_SSL_free
| do_close
| do_SSL_CTX_free.

(** The release calls the destructor makes, in order. *)
Definition Apns_destructor (a : ApnsObject) : list release :=
  (if ssl_ a then [do_SSL_shutdown; do_SSL_free] else [])
  ++ (if sock_ a then [do_close] else [])
  ++ (if ctx_ a then [do_SSL_CTX_free] else []).

(** A library in which every call succeeds, and one in which only [c]
    fails, queuing [codes]. *)
Definition libcall_eqb (c d : libcall) : bool :=
  match c, d with
  | TLSv1_method, TLSv1_method | SSL_CTX_new, SSL_CTX_new
  | SSL_CTX_use_certificate_file, SSL_CTX_use_certificate_file
  | SSL_CTX_use_PrivateKey_file, SSL_CTX_use_PrivateKey_file
  | SSL_CTX_check_private_key, SSL_CTX_check_private_key
  | gethostbyname, gethostbyname | socket, socket | connect, connect
  | SSL_new, SSL_new | SSL_set_fd, SSL_set_fd | SSL_connect, SSL_connect => true
  | _, _ => false
  end.

(** The source line of the assertion that tests a call, and the place
    of the call in the order of execution. *)
Definition call_line (c : libcall) : Z :=
  match c with
  | TLSv1_method => 57
  | SSL_CTX_new => 59
  | SSL_CTX_use_certificate_file => 63
  | SSL_CTX_use_PrivateKey_file => 64
  | SSL_CTX_check_private_key => 65
  | gethostbyname => 90
  | socket => 95
  | connect => 96
  | SSL_new => 98
  | SSL_set_fd => 99
  | SSL_connect => 100
  end.

Definition call_order (c : libcall) : nat :=
  match c with
  | TLSv1_method => 0
  | SSL_CTX_new => 1
  | SSL_CTX_use_certificate_file => 2
  | SSL_CTX_use_PrivateKey_file => 3
  | SSL_CTX_check_private_key => 4
  | gethostbyname => 5
  | socket => 6
  | connect => 7
  | SSL_new => 8
  | SSL_set_fd => 9
  | SSL_connect => 10
  end.

Definition is_system_call (c : libcall) : bool :=
  match c with
  | gethostbyname | socket | connect => true
  | _ => false
  end.

Definition sound_library : Library :=
  mkLibrary (fun _ => false) (fun _ => []) 0.

Definition failing_library (c : libcall) (codes : list Z) (errno : Z)
  : Library :=
  mkLibrary (libcall_eqb c) (fun _ => codes) errno.

(** ** Byte order *)

Lemma length_store (t : Target) (n : nat) (v : Z) : length (store t n v) = n.
Proof.
  unfold store. destruct (little_endian t).
  - apply length_le_split.
  - rewrite length_rev. apply length_le_split.
Qed.

Lemma length_be_bytes (n : nat) (v : Z) : length (be_bytes n v) = n.
Proof. unfold be_bytes. rewrite length_rev. apply length_le_split. Qed.

Lemma store_bswap (n : nat) (v : Z) :
  le_split n (bswap n v) = be_bytes n v.
Proof.
  unfold bswap, be_bytes.
  rewrite <- (length_le_split n v) at 1.
  rewrite <- length_rev. apply split_le_combine.
Qed.

(** Storing [htonl v] puts the big-endian bytes of [v] in memory, on
    either kind of host. *)
Lemma store_htonl (t : Target) (v : Z) : store t 4 (htonl t v) = be_bytes 4 v.
Proof.
  unfold store, htonl. destruct (little_endian t).
  - apply store_bswap.
  - unfold be_bytes, uint32_t. f_equal. symmetry. apply (le_split_mod v 4).
Qed.

Lemma store_htons (t : Target) (v : Z) : store t 2 (htons t v) = be_bytes 2 v.
Proof.
  unfold store, htons. destruct (little_endian t).
  - apply store_bswap.
  - unfold be_bytes, uint16_t. f_equal. symmetry. apply (le_split_mod v 2).
Qed.

Lemma be_value_be_bytes (n : nat) (v : Z) :
  be_value (be_bytes n v) = v mod 2 ^ (Z.of_nat n * 8).
Proof.
  unfold be_value, be_bytes. rewrite rev_involutive. apply le_combine_split.
Qed.

Lemma load_store (t : Target) (n : nat) (v : Z) :
  load t (store t n v) = v mod 2 ^ (Z.of_nat n * 8).
Proof.
  unfold load, store. destruct (little_endian t).
  - apply le_combine_split.
  - rewrite rev_involutive. apply le_combine_split.
Qed.

(** ** Layout of the notification frame *)

Lemma field_here (n : nat) (l r : list byte) :
  length l = n -> field 0 n (l ++ r) = l.
Proof.
  intros <-. unfold field. cbn [skipn].
  rewrite firstn_app, Nat.sub_diag, firstn_all. cbn [firstn]. apply app_nil_r.
Qed.

Lemma skipn_past (off : nat) (l r : list byte) :
  (length l <= off)%nat -> skipn off (l ++ r) = skipn (off - length l) r.
Proof.
  intros H. rewrite skipn_app, skipn_all2 by lia. reflexivity.
Qed.

Lemma field_past (off n : nat) (l r : list byte) :
  (length l <= off)%nat -> field off n (l ++ r) = field (off - length l) n r.
Proof. intros H. unfold field. now rewrite skipn_past. Qed.

(** The frame, field by field: command, identifier as the host stores
    it, then expiry, token length and payload length in network order. *)
Lemma notification_frame_fields (t : Target) (now : Z) (token : list byte)
    (aps : text) :
  notification_frame t now token aps =
  [Byte.x01] ++ store t 4 (uint32_t now)
  ++ be_bytes 4 (uint32_t now + 86400)
  ++ [Byte.x00; Byte.x20] ++ token
  ++ be_bytes 2 (Z.of_nat (length aps)) ++ aps.
Proof.
  unfold notification_frame.
  rewrite store_htonl, !store_htons.
  replace (store t 1 1) with [Byte.x01] by (unfold store; destruct (little_endian t); reflexivity).
  reflexivity.
Qed.

(** ** C strings *)

Lemma c_str_no_nul (l : text) :
  forallb (fun c => negb (is_nul c)) l = true -> c_str l = l.
Proof.
  induction l as [|c l IH]; cbn [forallb c_str]; [reflexivity|].
  intros H. apply andb_prop in H as [Hc Hl].
  destruct (is_nul c); [discriminate|]. now rewrite IH.
Qed.

Lemma c_str_has_no_nul (mem : list byte) :
  forallb (fun c => negb (is_nul c)) (c_str mem) = true.
Proof.
  induction mem as [|c mem IH]; cbn [c_str]; [reflexivity|].
  destruct (is_nul c) eqn:E; cbn [forallb]; [reflexivity|].
  now rewrite E, IH.
Qed.

(** The terminator that follows a string's characters does not show. *)
Lemma c_str_terminated (l : text) : c_str (l ++ [Byte.x00]) = c_str l.
Proof.
  induction l as [|c l IH]; cbn [app c_str]; [reflexivity|].
  now rewrite IH.
Qed.

Lemma forallb_firstn {A : Type} (p : A -> bool) (n : nat) (l : list A) :
  forallb p l = true -> forallb p (firstn n l) = true.
Proof.
  revert n; induction l as [|a l IH]; intros [|n]; cbn [firstn forallb];
    try reflexivity.
  intros H. apply andb_prop in H as [-> Hl]. now apply IH.
Qed.

(** ** Hex digits and the scan of a digit pair *)

Lemma is_hex_not_nul (c : byte) : is_hex c = true -> is_nul c = false.
Proof. destruct c; try discriminate; reflexivity. Qed.

Lemma hex_digit_facts (c : byte) :
  is_hex c = true ->
  isspace c = false
  /\ (byte.unsigned c =? 45) = false /\ (byte.unsigned c =? 43) = false
  /\ (byte.unsigned c =? 120) = false /\ (byte.unsigned c =? 88) = false
  /\ hex_value c = Some (hex_digit_value c)
  /\ 0 <= hex_digit_value c <= 15.
Proof.
  destruct c; try discriminate; intros _; repeat split; try reflexivity;
    vm_compute; discriminate.
Qed.


(** Whatever follows it, a text that begins with a hex digit is
    converted: the scan cannot fail. *)
Lemma sscanf_x_starts_hex (c : byte) (l : text) :
  is_hex c = true -> exists v, sscanf_x (c :: l) = Some v.
Proof.
  intros Hc.
  destruct (hex_digit_facts c Hc) as (Hsp & H45 & H43 & _).
  unfold sscanf_x. cbn [skip_space]. rewrite Hsp, H45, H43.
  destruct l as [|x [|h r]]; cbv beta iota zeta.
  - rewrite Hc. eexists. reflexivity.
  - rewrite Hc. eexists. reflexivity.
  - destruct ((byte.unsigned c =? 48)
              && ((byte.unsigned x =? 120) || (byte.unsigned x =? 88))
              && is_hex h) eqn:T.
    + apply andb_prop in T as [_ Hh]. rewrite Hh. eexists. reflexivity.
    + rewrite Hc. eexists. reflexivity.
Qed.

Lemma sscanf_x_c_str_starts_hex (c : byte) (mem : list byte) :
  is_hex c = true -> exists v, sscanf_x (c_str (c :: mem)) = Some v.
Proof.
  intros Hc. cbn [c_str]. rewrite (is_hex_not_nul c Hc).
  now apply sscanf_x_starts_hex.
Qed.

(** Induction over a text two characters at a time. *)
Lemma hex_string_ind (P : text -> Prop) :
  P [] ->
  (forall c0 c1 rest,
      is_hex c0 = true -> is_hex c1 = true -> is_hex_string rest = true ->
      P rest -> P (c0 :: c1 :: rest)) ->
  forall s, is_hex_string s = true -> P s.
Proof.
  intros Hnil Hstep.
  fix IH 1. intros [|c0 [|c1 rest]]; cbn [is_hex_string]; intros H.
  - exact Hnil.
  - discriminate.
  - apply andb_prop in H as [H01 Hr]. apply andb_prop in H01 as [H0 H1].
    apply Hstep; auto.
Qed.

Lemma nul_free_pairs_ind (P : text -> Prop) :
  P [] ->
  (forall c0 c1 rest,
      is_nul c0 = false -> is_nul c1 = false -> nul_free_pairs rest = true ->
      P rest -> P (c0 :: c1 :: rest)) ->
  forall s, nul_free_pairs s = true -> P s.
Proof.
  intros Hnil Hstep.
  fix IH 1. intros [|c0 [|c1 rest]]; cbn [nul_free_pairs]; intros H.
  - exact Hnil.
  - discriminate.
  - apply andb_prop in H as [H01 Hr]. apply andb_prop in H01 as [H0 H1].
    apply negb_true_iff in H0, H1. apply Hstep; auto.
Qed.

Lemma length_hex_pairs (s : text) :
  is_hex_string s = true -> (2 * length (hex_pairs s) = length s)%nat.
Proof.
  revert s. apply hex_string_ind.
  - reflexivity.
  - intros c0 c1 rest _ _ _ IH. cbn [hex_pairs length]. lia.
Qed.

Lemma length_pairs (s : text) :
  nul_free_pairs s = true -> (2 * length (hex_pairs s) = length s)%nat.
Proof.
  revert s. apply nul_free_pairs_ind.
  - reflexivity.
  - intros c0 c1 rest _ _ _ IH. cbn [hex_pairs length]. lia.
Qed.

Lemma is_hex_string_nul_free (s : text) :
  is_hex_string s = true ->
  nul_free_pairs s = true /\ starts_with_hex s = true.
Proof.
  revert s. apply hex_string_ind.
  - split; reflexivity.
  - intros c0 c1 rest H0 H1 _ [IH _]. split; [|exact H0].
    cbn [nul_free_pairs].
    now rewrite (is_hex_not_nul c0 H0), (is_hex_not_nul c1 H1), IH.
Qed.

(** Once [ch] has been assigned, the loop has defined behaviour on every
    string of whole pairs, whatever lies behind [tmp]: a scan that fails
    leaves the earlier value to be stored.  It stores one byte a pair,
    [szLen] of them at most. *)
Lemma Str2Hex_loop_assigned (t : Target) (s : text) :
  nul_free_pairs s = true ->
  forall szLen v,
  exists stored,
    Str2Hex_loop t (s ++ [Byte.x00]) szLen (Some v) = Some stored
    /\ length stored = Nat.min szLen (length (hex_pairs s)).
Proof.
  revert s. apply (nul_free_pairs_ind (fun s => forall szLen v,
    exists stored,
      Str2Hex_loop t (s ++ [Byte.x00]) szLen (Some v) = Some stored
      /\ length stored = Nat.min szLen (length (hex_pairs s)))).
  - intros szLen v. exists []. cbn. split; [reflexivity|]. now rewrite Nat.min_0_r.
  - intros c0 c1 rest H0 H1 Hr IH szLen v.
    cbn [app Str2Hex_loop hex_pairs length]. rewrite H0.
    destruct szLen as [|n]; [exists []; split; reflexivity|].
    destruct (sscanf_x (c_str (c0 :: c1 :: behind_tmp t n (Some v))))
      as [v'|];
      [destruct (IH n v') as (stored & -> & Hlen)
      |destruct (IH n v) as (stored & -> & Hlen)];
      eexists; (split; [reflexivity|]); cbn [length Nat.min]; now rewrite Hlen.
Qed.

(** From the start, so it is for a string of whole pairs that begins
    with a hex digit: the first scan cannot fail. *)
Lemma Str2Hex_loop_defined (t : Target) (s : text) (szLen : nat) :
  nul_free_pairs s = true -> starts_with_hex s = true ->
  exists stored,
    Str2Hex_loop t (s ++ [Byte.x00]) szLen None = Some stored
    /\ length stored = Nat.min szLen (length (hex_pairs s)).
Proof.
  intros Hs Hfirst. destruct s as [|c0 [|c1 rest]]; try discriminate Hs.
  - exists []. cbn. split; [reflexivity|]. now rewrite Nat.min_0_r.
  - cbn [nul_free_pairs] in Hs. apply andb_prop in Hs as [H01 Hr].
    apply andb_prop in H01 as [H0 H1]. apply negb_true_iff in H0, H1.
    cbn [starts_with_hex] in Hfirst.
    cbn [app Str2Hex_loop hex_pairs length]. rewrite H0.
    destruct szLen as [|n]; [exists []; split; reflexivity|].
    destruct (sscanf_x_c_str_starts_hex c0 (c1 :: behind_tmp t n None) Hfirst)
      as [v ->].
    destruct (Str2Hex_loop_assigned t rest Hr n v) as (stored & -> & Hlen).
    eexists. split; [reflexivity|]. cbn [length Nat.min]. now rewrite Hlen.
Qed.

(** What follows the pairs that fill [buf] is not looked at. *)
Lemma Str2Hex_loop_cut (t : Target) (s extra : text) :
  nul_free_pairs s = true ->
  forall szLen ch,
    (szLen <= length (hex_pairs s))%nat ->
    Str2Hex_loop t ((s ++ extra) ++ [Byte.x00]) szLen ch
    = Str2Hex_loop t (s ++ [Byte.x00]) szLen ch.
Proof.
  revert s. apply (nul_free_pairs_ind (fun s => forall szLen ch,
    (szLen <= length (hex_pairs s))%nat ->
    Str2Hex_loop t ((s ++ extra) ++ [Byte.x00]) szLen ch
    = Str2Hex_loop t (s ++ [Byte.x00]) szLen ch)).
  - intros szLen ch Hlen. cbn [hex_pairs length] in Hlen.
    assert (szLen = 0%nat) by lia. subst szLen.
    cbn [app]. destruct (extra ++ [Byte.x00]) as [|c l] eqn:E.
    + destruct extra; discriminate E.
    + cbn [Str2Hex_loop]. destruct (is_nul c); reflexivity.
  - intros c0 c1 rest H0 H1 Hr IH szLen ch Hlen.
    cbn [app Str2Hex_loop hex_pairs length] in *. rewrite H0.
    destruct szLen as [|n]; [reflexivity|].
    destruct (match sscanf_x (c_str (c0 :: c1 :: behind_tmp t n ch)) with
              | Some v => Some v | None => ch end) as [v|]; [|reflexivity].
    rewrite IH by lia. reflexivity.
Qed.

Lemma Str2Hex_loop_length (t : Target) (szLen : nat) :
  forall mem ch stored,
    Str2Hex_loop t mem szLen ch = Some stored -> (length stored <= szLen)%nat.
Proof.
  induction szLen as [|n IH]; intros [|c0 mem1] ch stored;
    cbn [Str2Hex_loop]; try discriminate.
  - destruct (is_nul c0); intros [= <-]; cbn; lia.
  - destruct (is_nul c0); [intros [= <-]; cbn; lia|].
    destruct mem1 as [|c1 mem2]; [discriminate|].
    destruct (sscanf_x (c_str ([c0; c1] ++ behind_tmp t n ch))) as [v|];
      [|destruct ch as [v|]];
      try discriminate;
      (destruct (Str2Hex_loop t mem2 n (Some v)) as [r|] eqn:E; [|discriminate];
       intros [= <-]; apply IH in E; cbn [length]; lia).
Qed.

(** Whatever the token string, [token] holds exactly [szLen] bytes. *)
Lemma Str2Hex_length (t : Target) (str : text) (szLen : nat)
    (buf : list byte) :
  Str2Hex t str szLen = Some buf -> length buf = szLen.
Proof.
  unfold Str2Hex.
  destruct (Str2Hex_loop t (str ++ [Byte.x00]) szLen None) as [stored|] eqn:E;
    [|discriminate].
  intros [= <-]. apply Str2Hex_loop_length in E.
  rewrite length_app, repeat_length. lia.
Qed.

(** For a string of whole pairs beginning with a hex digit [buf] ends up
    as the stored bytes, one a pair and [szLen] at most, then zeros. *)
Lemma Str2Hex_defined (t : Target) (s : text) (szLen : nat) :
  nul_free_pairs s = true -> starts_with_hex s = true ->
  exists stored,
    Str2Hex t s szLen
    = Some (stored ++ repeat Byte.x00 (szLen - length stored))
    /\ length stored = Nat.min szLen (length (hex_pairs s)).
Proof.
  intros Hs Hf. unfold Str2Hex.
  destruct (Str2Hex_loop_defined t s szLen Hs Hf) as (stored & -> & Hlen).
  exists stored. split; [reflexivity | exact Hlen].
Qed.

(** ** The payload text *)

Definition no_nul (l : text) : bool := forallb (fun c => negb (is_nul c)) l.

Lemma no_nul_app (l r : text) : no_nul (l ++ r) = no_nul l && no_nul r.
Proof. apply forallb_app. Qed.

Lemma no_nul_uint (d : Decimal.uint) :
  no_nul (list_byte_of_string (NilEmpty.string_of_uint d)) = true.
Proof. induction d; cbn; auto. Qed.

Lemma no_nul_fmt_d (v : Z) : no_nul (fmt_d v) = true.
Proof.
  unfold fmt_d. destruct (Z.to_int v) as [d|d]; cbn [NilZero.string_of_int].
  - unfold NilZero.string_of_uint. destruct d; try apply no_nul_uint. reflexivity.
  - change (no_nul (Byte.x2d :: list_byte_of_string (NilZero.string_of_uint d)) = true).
    cbn [no_nul forallb]. unfold NilZero.string_of_uint.
    destruct d; try apply no_nul_uint. reflexivity.
Qed.

Lemma no_nul_aps_format (body : text) (badge : Z) (sound : text) :
  no_nul body = true -> no_nul sound = true ->
  no_nul (aps_format body badge sound) = true.
Proof.
  intros Hb Hs. unfold aps_format.
  repeat (rewrite no_nul_app || rewrite Hb || rewrite Hs || rewrite no_nul_fmt_d).
  reflexivity.
Qed.

(** [ConstructAps] returns the first 255 bytes of the filled-in format,
    where [%s] shows [body] and [sound] up to their first NUL. *)
Lemma ConstructAps_eq (body : text) (badge : Z) (sound : text) :
  ConstructAps body badge sound =
  firstn 255 (aps_format (c_str body) badge (c_str sound)).
Proof.
  unfold ConstructAps, snprintf.
  rewrite !c_str_terminated. change (256 - 1)%nat with 255%nat.
  apply c_str_no_nul. apply forallb_firstn.
  apply no_nul_aps_format; apply c_str_has_no_nul.
Qed.

Lemma ConstructAps_length (body : text) (badge : Z) (sound : text) :
  (length (ConstructAps body badge sound) <= 255)%nat.
Proof. rewrite ConstructAps_eq. apply firstn_le_length. Qed.

(** ** Fields of the notification frame *)

(** Offsets of the fields when the token array holds its 32 bytes:
    command 0, identifier 1, expiry 5, token length 9, token 11, payload
    length 43, payload 45. *)
Lemma notification_frame_layout (t : Target) (now : Z) (token : list byte)
    (aps : text) :
  length token = 32%nat ->
  let frame := notification_frame t now token aps in
  field 0 1 frame = [Byte.x01]
  /\ field 1 4 frame = store t 4 (uint32_t now)
  /\ field 5 4 frame = be_bytes 4 (uint32_t now + 86400)
  /\ field 9 2 frame = [Byte.x00; Byte.x20]
  /\ field 11 32 frame = token
  /\ field 43 2 frame = be_bytes 2 (Z.of_nat (length aps))
  /\ skipn 45 frame = aps.
Proof.
  intros Htok frame. subst frame. rewrite notification_frame_fields.
  pose proof (length_store t 4 (uint32_t now)) as Hid.
  pose proof (length_be_bytes 4 (uint32_t now + 86400)) as Hex.
  pose proof (length_be_bytes 2 (Z.of_nat (length aps))) as Hpl.
  set (id := store t 4 (uint32_t now)) in *.
  set (ex := be_bytes 4 (uint32_t now + 86400)) in *.
  set (pl := be_bytes 2 (Z.of_nat (length aps))) in *.
  assert (H1 : length [Byte.x01] = 1%nat) by reflexivity.
  assert (H2 : length [Byte.x00; Byte.x20] = 2%nat) by reflexivity.
  set (cmd := [Byte.x01]) in *. set (tl := [Byte.x00; Byte.x20]) in *.
  repeat split;
    repeat (first [ rewrite field_past by lia | rewrite skipn_past by lia ];
            rewrite ?H1, ?H2, ?Hid, ?Hex, ?Hpl, ?Htok; cbn [Nat.sub]);
    try (apply field_here; assumption).
  reflexivity.
Qed.

Lemma notification_frame_length (t : Target) (now : Z) (token : list byte)
    (aps : text) :
  length (notification_frame t now token aps)
  = (11 + length token + 2 + length aps)%nat.
Proof.
  rewrite notification_frame_fields.
  rewrite !length_app, length_store, !length_be_bytes. cbn [length]. lia.
Qed.

(** What [PushMessage] hands to [SSL_write] is a frame around a 32-byte
    token array. *)
Lemma PushMessage_frame_inv (t : Target) (now : Z) (deviceToken body : text)
    (badge : Z) (sound : text) (frame : list byte) :
  PushMessage_frame t now deviceToken body badge sound = Some frame ->
  exists token,
    Str2Hex t deviceToken 32 = Some token /\ length token = 32%nat
    /\ frame = notification_frame t now token (ConstructAps body badge sound).
Proof.
  unfold PushMessage_frame.
  destruct (Str2Hex t deviceToken 32) as [token|] eqn:E; [|discriminate].
  intros [= <-]. exists token. repeat split. now apply Str2Hex_length in E.
Qed.

(** With a working transport the whole frame is written and its length
    returned. *)
Lemma PushMessage_healthy (t : Target) (now : Z) (w : Ssl)
    (deviceToken body : text) (badge : Z) (sound : text) (frame : list byte) :
  ssl_fault w = None ->
  PushMessage_frame t now deviceToken body badge sound = Some frame ->
  PushMessage t now w deviceToken body badge sound
  = (Returned (Z.of_nat (length frame)),
     mkSsl (ssl_pending w) (ssl_errors w) None (ssl_sent w ++ frame)).
Proof.
  intros Hw Hf. unfold PushMessage. rewrite Hf. unfold SSL_write. rewrite Hw.
  apply PushMessage_frame_inv in Hf as (token & _ & _ & ->).
  rewrite notification_frame_length.
  destruct (Z.of_nat _ <=? 0) eqn:E; [apply Z.leb_le in E; lia|].
  reflexivity.
Qed.

(** ** One character for each byte *)

Lemma Hex2Str_round (t : Target) (b : byte) :
  c_str (snprintf 2 (fmt_x (char_as_unsigned t b)) ++ [Byte.x00])
  = [Hex2Str_char t b].
Proof. destruct t as [le [|] bh]; destruct b; reflexivity. Qed.

Lemma Hex2Str_map (t : Target) (len : nat) :
  forall buf, (len <= length buf)%nat ->
  Hex2Str t buf len = Some (map (Hex2Str_char t) (firstn len buf)).
Proof.
  induction len as [|n IH]; intros buf Hlen; [reflexivity|].
  destruct buf as [|b rest]; [cbn in Hlen; lia|].
  cbn [Hex2Str]. rewrite Hex2Str_round, IH by (cbn in Hlen; lia).
  reflexivity.
Qed.

Lemma Hex2Str_outside (t : Target) (len : nat) :
  forall buf, (length buf < len)%nat -> Hex2Str t buf len = None.
Proof.
  induction len as [|n IH]; intros buf Hlen; [lia|].
  destruct buf as [|b rest]; [reflexivity|].
  cbn [Hex2Str]. rewrite IH by (cbn in Hlen; lia). reflexivity.
Qed.

(** * Properties of the specification, checked on the code *)

(** ** C1: the sample notification *)

(** C1, as stated, fails: for the token 0102...20, body hello, badge 5
    and sound default, sent at time 1700000000 from a little-endian host,
    the two bytes at offsets 5-6 (and those at 4-5, counting from one) are
    not 00 20: they belong to the identifier and the expiry. *)
Lemma C1_bytes_5_6_are_not_the_token_length :
  exists frame,
    PushMessage_frame x86_64_linux 1700000000 sample_token_hex
      (txt "hello") 5 (txt "default") = Some frame
    /\ field 5 2 frame = [Byte.x65; Byte.x55]
    /\ field 5 2 frame <> [Byte.x00; Byte.x20]
    /\ field 4 2 frame <> [Byte.x00; Byte.x20].
Proof.
  eexists. split; [vm_compute; reflexivity|].
  repeat split; vm_compute; congruence.
Qed.

(** C1, amended: on every host and at every time, the frame built for
    token 0102...20, body hello, badge 5, sound default starts with the
    byte 1, has 00 20 (32, big-endian) at offsets 9-10, and at offsets
    43-44, right before the payload, the big-endian byte length of the
    payload, which is the filled-in template of 57 bytes. *)
Theorem C1_sample_frame (t : Target) (now : Z) :
  exists frame,
    PushMessage_frame t now sample_token_hex (txt "hello") 5 (txt "default")
    = Some frame
    /\ field 0 1 frame = [Byte.x01]
    /\ field 9 2 frame = [Byte.x00; Byte.x20]
    /\ be_value (field 43 2 frame) = Z.of_nat (length (skipn 45 frame))
    /\ skipn 45 frame = aps_format (txt "hello") 5 (txt "default")
    /\ length (skipn 45 frame) = 57%nat.
Proof.
  destruct (Str2Hex_defined t sample_token_hex 32 eq_refl eq_refl)
    as (stored & Htok & _).
  pose proof (Str2Hex_length t _ _ _ Htok) as Hlen.
  unfold PushMessage_frame. rewrite Htok.
  eexists. split; [reflexivity|].
  destruct (notification_frame_layout t now _
              (ConstructAps (txt "hello") 5 (txt "default")) Hlen)
    as (Hcmd & _ & _ & Htl & _ & Hpl & Haps).
  rewrite Hcmd, Htl, Hpl, Haps.
  repeat split; vm_compute; reflexivity.
Qed.

(** ** C2: the sample feedback frame *)

(** C2, evaluated: from the bytes 00 00 00 0A, 00 02, AB CD (and zeros up
    to 38) the decode step yields the timestamp 10 on every host, but never
    the token text abcd: a little-endian host computes the length 0 and an
    empty token, a big-endian one the length 2 and the text ff (signed
    char) or ac (unsigned char). *)
Theorem C2_sample_feedback_decoded (t : Target) :
  exists r,
    FeedBack_decode t sample_feedback_buf = Some r
    /\ tm r = 10
    /\ len r = (if little_endian t then 0 else 2)
    /\ token r = (if little_endian t then []
                  else if char_is_signed t then txt "ff" else txt "ac")
    /\ token r <> txt "abcd".
Proof.
  destruct t as [[|] [|] bh]; eexists;
    (split; [vm_compute; reflexivity|]);
    repeat split; vm_compute; congruence.
Qed.

(** ** C3: the two conversions are not inverse *)

(** Of the digits [%x] produces, the two-byte array [ch] keeps one. *)
Lemma Hex2Str_round_length (out : text) :
  (length (c_str (snprintf 2 out ++ [Byte.x00])) <= 1)%nat.
Proof.
  rewrite c_str_terminated. unfold snprintf. cbn [Nat.sub].
  destruct out as [|c l]; cbn [firstn c_str length]; [lia|].
  destruct (is_nul c); cbn [length]; lia.
Qed.

(** [Hex2Str] yields at most one character for each byte. *)
Lemma Hex2Str_length (t : Target) (len : nat) :
  forall buf h, Hex2Str t buf len = Some h -> (length h <= len)%nat.
Proof.
  induction len as [|n IH]; intros buf h; cbn [Hex2Str].
  - intros [= <-]. cbn [length]. lia.
  - destruct buf as [|b rest]; [discriminate|].
    pose proof (Hex2Str_round_length (fmt_x (char_as_unsigned t b))) as Hch.
    revert Hch.
    generalize (c_str (snprintf 2 (fmt_x (char_as_unsigned t b)) ++ [Byte.x00])).
    intros ch Hch.
    destruct (Hex2Str t rest n) as [h'|] eqn:E; [|discriminate].
    cbn [option_map]. intros [= <-]. apply IH in E.
    rewrite length_app. lia.
Qed.

(** C3, evaluated: on every host, the 32 bytes 01..20 are rendered by
    [Hex2Str] as a text that [Str2Hex] does not turn back into them, and
    the 64 lower-case hex digits 0102...20 are decoded by [Str2Hex] into
    bytes that [Hex2Str] renders as a text of 32 characters, not the 64. *)
Theorem C3_round_trips_fail (t : Target) :
  (exists h,
      Hex2Str t sample_token_bytes 32 = Some h
      /\ Str2Hex t h 32 <> Some sample_token_bytes)
  /\ (exists bs h,
         Str2Hex t sample_token_hex 32 = Some bs
         /\ Hex2Str t bs 32 = Some h
         /\ length h = 32%nat
         /\ h <> sample_token_hex).
Proof.
  split.
  - exists (map (Hex2Str_char t) sample_token_bytes). split.
    + rewrite Hex2Str_map by (cbn; lia). reflexivity.
    + assert (Hp : nul_free_pairs (map (Hex2Str_char t) sample_token_bytes)
                   = true)
        by (destruct t as [le [|] bh]; vm_compute; reflexivity).
      assert (Hs : starts_with_hex (map (Hex2Str_char t) sample_token_bytes)
                   = true)
        by (destruct t as [le [|] bh]; vm_compute; reflexivity).
      destruct (Str2Hex_defined t _ 32 Hp Hs) as (stored & -> & Hlen).
      assert (H16 : length stored = 16%nat).
      { rewrite Hlen. destruct t as [le [|] bh]; vm_compute; reflexivity. }
      intros [= E].
      apply (f_equal (fun l => nth 16 l Byte.xff)) in E.
      rewrite app_nth2, H16 in E by lia. cbn in E. discriminate E.
  - destruct (Str2Hex_defined t sample_token_hex 32 eq_refl eq_refl)
      as (stored & Htok & _).
    pose proof (Str2Hex_length t _ _ _ Htok) as Hlen.
    eexists. exists (map (Hex2Str_char t) (firstn 32 (stored ++ repeat Byte.x00 (32 - length stored)))).
    split; [exact Htok|]. split; [apply Hex2Str_map; lia|].
    assert (H32 : length (map (Hex2Str_char t)
                            (firstn 32 (stored ++ repeat Byte.x00
                                                    (32 - length stored))))
                  = 32%nat)
      by (rewrite length_map, length_firstn; lia).
    split; [exact H32|].
    intros E. rewrite E in H32. vm_compute in H32. discriminate H32.
Qed.

(** ** C4: no validation of the device token *)

(** C4, as stated, fails: with a working transport [PushMessage] returns
    the number of bytes written, and throws nothing, for the token ab
    (one byte instead of 32), for abzz (not hex digits), and for a token
    of 64 characters of which two are not hex digits. *)
Lemma C4_malformed_tokens_are_sent :
  fst (PushMessage x86_64_linux 1700000000 healthy_session
         (txt "ab") (txt "hello") 5 (txt "default")) = Returned 102
  /\ fst (PushMessage x86_64_linux 1700000000 healthy_session
            (txt "abzz") (txt "hello") 5 (txt "default")) = Returned 102
  /\ fst (PushMessage x86_64_linux 1700000000 healthy_session
            (txt "01zz030405060708090a0b0c0d0e0f101112131415161718191a1b1c1d1e1f20")
            (txt "hello") 5 (txt "default")) = Returned 102.
Proof. repeat split; vm_compute; reflexivity. Qed.

(** C4, amended: [PushMessage] does not validate the token and raises
    no format error.  Whenever it throws, the transport has failed and the
    exception is the SSL error raised by the assertion after [SSL_write]
    (line 183).  And with a working transport every token of whole pairs
    of characters other than NUL that begins with a hex digit, whatever
    its length and its other characters, is framed and sent, and the
    length of the frame returned. *)
Theorem C4_only_ssl_errors (t : Target) (now : Z) (w w' : Ssl)
    (deviceToken body : text) (badge : Z) (sound : text) (e : Exception) :
  (PushMessage t now w deviceToken body badge sound = (Thrown e, w') ->
   exists f codes code,
     ssl_fault w = Some (f, codes) /\ code <> 0 /\ e = SslError code 183)
  /\ (nul_free_pairs deviceToken = true ->
      starts_with_hex deviceToken = true ->
      ssl_fault w = None ->
      exists frame,
        PushMessage_frame t now deviceToken body badge sound = Some frame
        /\ PushMessage t now w deviceToken body badge sound
           = (Returned (Z.of_nat (length frame)),
              mkSsl (ssl_pending w) (ssl_errors w) None (ssl_sent w ++ frame))).
Proof.
  split.
  - unfold PushMessage.
    destruct (PushMessage_frame t now deviceToken body badge sound)
      as [frame|] eqn:Hf; [|discriminate].
    unfold SSL_write.
    destruct (ssl_fault w) as [[f codes]|] eqn:Hw.
    + unfold ASSERT_SSL, ERR_get_error. cbn [ssl_errors].
      destruct (failure_ret f <=? 0); [|discriminate].
      destruct (ssl_errors w ++ codes) as [|code rest]; cbn [Z.eqb];
        [discriminate|].
      destruct (code =? 0) eqn:Hc; [discriminate|].
      intros [= <- _]. exists f, codes, code. apply Z.eqb_neq in Hc. auto.
    + apply PushMessage_frame_inv in Hf as (token & _ & _ & ->).
      unfold ASSERT_SSL. rewrite notification_frame_length.
      destruct (Z.of_nat _ <=? 0) eqn:E;
        [apply Z.leb_le in E; lia|discriminate].
  - intros Hp Hs Hw.
    destruct (Str2Hex_defined t deviceToken 32 Hp Hs) as (stored & Htok & _).
    assert (Hf : PushMessage_frame t now deviceToken body badge sound
                 = Some (notification_frame t now
                           (stored ++ repeat Byte.x00 (32 - length stored))
                           (ConstructAps body badge sound)))
      by (unfold PushMessage_frame; now rewrite Htok).
    eexists. split; [exact Hf|]. now apply PushMessage_healthy.
Qed.

Lemma C4_only_ssl_errors_witness :
  (exists f codes code,
      ssl_fault (mkSsl [] [] (Some (ReturnsNegative, [336151576])) [])
      = Some (f, codes) /\ code <> 0
      /\ SslError 336151576 183 = SslError code 183)
  /\ (exists frame,
        PushMessage_frame x86_64_linux 1700000000 (txt "abzz") (txt "hello") 5
          (txt "default") = Some frame
        /\ PushMessage x86_64_linux 1700000000 healthy_session (txt "abzz")
             (txt "hello") 5 (txt "default")
           = (Returned (Z.of_nat (length frame)),
              mkSsl [] [] None ([] ++ frame))).
Proof.
  split.
  - apply (C4_only_ssl_errors x86_64_linux 1700000000
             (mkSsl [] [] (Some (ReturnsNegative, [336151576])) [])
             (mkSsl [] [] (Some (ReturnsNegative, [336151576])) [])
             sample_token_hex (txt "hello") 5 (txt "default")).
    vm_compute. reflexivity.
  - apply (C4_only_ssl_errors x86_64_linux 1700000000 healthy_session
             healthy_session (txt "abzz") (txt "hello") 5 (txt "default")
             (SslError 0 0)); reflexivity.
Defined.

(** ** C5: the feedback drain and a frame of exactly 38 bytes *)

(** C5, evaluated: when exactly 38 bytes, one whole feedback frame, are
    pending, [FeedBack] leaves the loop at once: it reads nothing, pushes
    no record and returns. *)
Theorem C5_one_pending_frame_is_not_read (fuel : nat) (t : Target) (w : Ssl)
    (feedbacks : list ApnsFeedback) :
  length (ssl_pending w) = 38%nat ->
  FeedBack (S fuel) t w feedbacks = Some (Returned tt, feedbacks, w).
Proof.
  intros H. cbn [FeedBack]. unfold SSL_pending. rewrite H. reflexivity.
Qed.

Lemma C5_one_pending_frame_is_not_read_witness :
  length (ssl_pending (mkSsl sample_feedback_buf [] None [])) = 38%nat
  /\ FeedBack 1 x86_64_linux (mkSsl sample_feedback_buf [] None []) []
     = Some (Returned tt, [], mkSsl sample_feedback_buf [] None []).
Proof.
  split; [reflexivity|].
  apply (C5_one_pending_frame_is_not_read 0 x86_64_linux). reflexivity.
Defined.

(** The drain stops without reading exactly when at most 38 bytes are
    pending; with more, it reads 38 of them. *)
Lemma FeedBack_idle (fuel : nat) (t : Target) (w : Ssl)
    (feedbacks : list ApnsFeedback) :
  (length (ssl_pending w) <= 38)%nat ->
  FeedBack (S fuel) t w feedbacks = Some (Returned tt, feedbacks, w).
Proof.
  intros H. cbn [FeedBack]. unfold SSL_pending, feedback_buf_size.
  destruct (Z.of_nat 38 >=? Z.of_nat (length (ssl_pending w))) eqn:E;
    [reflexivity|]. rewrite Z.geb_leb in E. apply Z.leb_gt in E. lia.
Qed.

Lemma FeedBack_reads (fuel : nat) (t : Target) (w : Ssl)
    (feedbacks : list ApnsFeedback) (r : ApnsFeedback) :
  (38 < length (ssl_pending w))%nat ->
  ssl_fault w = None ->
  FeedBack_decode t (firstn 38 (ssl_pending w)) = Some r ->
  FeedBack (S fuel) t w feedbacks
  = FeedBack fuel t
      (mkSsl (skipn 38 (ssl_pending w)) (ssl_errors w) None (ssl_sent w))
      (feedbacks ++ [r]).
Proof.
  intros H Hw Hr. cbn [FeedBack]. unfold SSL_pending, feedback_buf_size.
  destruct (Z.of_nat 38 >=? Z.of_nat (length (ssl_pending w))) eqn:E.
  { rewrite Z.geb_leb in E. apply Z.leb_le in E. lia. }
  unfold SSL_read. rewrite Hw.
  rewrite length_firstn, Nat.min_l by lia.
  cbn [Nat.sub repeat]. rewrite app_nil_r.
  unfold ASSERT_SSL. cbn [Z.leb Z.of_nat Z.compare]. rewrite Hr. reflexivity.
Qed.

(** With a working transport the drain comes to an end: as many rounds
    as there are pending bytes, and one more, suffice. *)
Lemma FeedBack_ends (t : Target) (fuel : nat) :
  forall w feedbacks,
    ssl_fault w = None ->
    (length (ssl_pending w) <= fuel)%nat ->
    FeedBack (S fuel) t w feedbacks <> None.
Proof.
  induction fuel as [|n IH]; intros w feedbacks Hw Hlen.
  - rewrite FeedBack_idle by lia. discriminate.
  - destruct (Nat.le_gt_cases (length (ssl_pending w)) 38) as [Hle|Hgt].
    + rewrite FeedBack_idle by lia. discriminate.
    + destruct (FeedBack_decode t (firstn 38 (ssl_pending w))) as [r|] eqn:Hr.
      * rewrite (FeedBack_reads (S n) t w feedbacks r Hgt Hw Hr).
        apply IH; [reflexivity|]. cbn [ssl_pending]. rewrite length_skipn. lia.
      * cbn [FeedBack]. unfold SSL_pending, feedback_buf_size.
        destruct (Z.of_nat 38 >=? Z.of_nat (length (ssl_pending w))) eqn:E.
        { rewrite Z.geb_leb in E. apply Z.leb_le in E. lia. }
        unfold SSL_read. rewrite Hw.
        rewrite length_firstn, Nat.min_l by lia.
        cbn [Nat.sub repeat]. rewrite app_nil_r.
        unfold ASSERT_SSL. cbn [Z.leb Z.of_nat Z.compare]. rewrite Hr.
        discriminate.
Qed.

(** With a dead transport that queues no error code, and more than 38
    bytes still counted as pending, no number of rounds suffices: each
    failed read goes unnoticed and the loop starts over. *)
Lemma FeedBack_spins (t : Target) (f : failure) (pending sent : list byte)
    (fuel : nat) :
  (38 < length pending)%nat ->
  forall feedbacks,
    FeedBack fuel t (mkSsl pending [] (Some (f, [])) sent) feedbacks = None.
Proof.
  intros Hlen. induction fuel as [|n IH]; intros feedbacks; [reflexivity|].
  cbn [FeedBack]. unfold SSL_pending, feedback_buf_size. cbn [ssl_pending].
  destruct (Z.of_nat 38 >=? Z.of_nat (length pending)) eqn:E.
  { rewrite Z.geb_leb in E. apply Z.leb_le in E. lia. }
  unfold SSL_read, ASSERT_SSL, ERR_get_error.
  cbn [ssl_fault ssl_errors ssl_pending ssl_sent app length Nat.sub].
  replace (failure_ret f <=? 0) with true by (destruct f; reflexivity).
  cbn [Z.eqb].
  destruct (FeedBack_decode t (repeat Byte.x00 38)) as [r|] eqn:Hr.
  - apply IH.
  - destruct t as [[|] [|] bh]; vm_compute in Hr; discriminate.
Qed.

(** ** C6: the identifier on the wire *)

(** C6, evaluated: a little-endian host sending at time 1700000000
    (hex 6553F100) puts the identifier on the wire as 00 F1 53 65, least
    significant byte first; network order is 65 53 F1 00.  The expiry next
    to it is in network order. *)
Theorem C6_identifier_in_host_order :
  exists frame,
    PushMessage_frame x86_64_linux 1700000000 sample_token_hex
      (txt "hello") 5 (txt "default") = Some frame
    /\ field 1 4 frame = [Byte.x00; Byte.xf1; Byte.x53; Byte.x65]
    /\ be_bytes 4 (uint32_t 1700000000)
       = [Byte.x65; Byte.x53; Byte.xf1; Byte.x00]
    /\ field 5 4 frame = be_bytes 4 (uint32_t 1700000000 + 86400).
Proof.
  eexists. split; [vm_compute; reflexivity|].
  repeat split; vm_compute; reflexivity.
Qed.

(** On every host the identifier field holds the identifier the way the
    host stores it: network order on a big-endian host only. *)
Lemma identifier_field (t : Target) (now : Z) (deviceToken body : text)
    (badge : Z) (sound : text) (frame : list byte) :
  PushMessage_frame t now deviceToken body badge sound = Some frame ->
  field 1 4 frame
  = if little_endian t then le_split 4 (uint32_t now)
    else be_bytes 4 (uint32_t now).
Proof.
  intros Hf. apply PushMessage_frame_inv in Hf as (token & _ & Hlen & ->).
  destruct (notification_frame_layout t now token
              (ConstructAps body badge sound) Hlen) as (_ & Hid & _).
  rewrite Hid. reflexivity.
Qed.

(** ** C7: a failed write that raises nothing *)

(** C7, evaluated: when [SSL_write] fails (returns 0 or -1) and the error
    queue holds no code, the assertion after it throws nothing and
    [PushMessage] returns the 0 or -1 to its caller. *)
Theorem C7_failed_write_is_returned (t : Target) (now : Z) (w : Ssl)
    (deviceToken body : text) (badge : Z) (sound : text) (f : failure)
    (frame : list byte) :
  ssl_fault w = Some (f, []) ->
  ssl_errors w = [] ->
  PushMessage_frame t now deviceToken body badge sound = Some frame ->
  PushMessage t now w deviceToken body badge sound
  = (Returned (failure_ret f), w).
Proof.
  intros Hw He Hf. unfold PushMessage. rewrite Hf.
  unfold SSL_write. rewrite Hw, He. cbn [app].
  unfold ASSERT_SSL, ERR_get_error. cbn [ssl_errors].
  destruct w as [p q fl s]; cbn in Hw, He |- *; subst.
  destruct f; reflexivity.
Qed.

Lemma C7_failed_write_is_returned_witness :
  PushMessage x86_64_linux 1700000000 (dead_session ReturnsZero)
    sample_token_hex (txt "hello") 5 (txt "default")
  = (Returned 0, dead_session ReturnsZero)
  /\ PushMessage x86_64_linux 1700000000 (dead_session ReturnsNegative)
       sample_token_hex (txt "hello") 5 (txt "default")
     = (Returned (-1), dead_session ReturnsNegative).
Proof.
  split.
  - eapply (C7_failed_write_is_returned x86_64_linux 1700000000
              (dead_session ReturnsZero) sample_token_hex (txt "hello") 5
              (txt "default") ReturnsZero);
      [reflexivity | reflexivity | vm_compute; reflexivity].
  - eapply (C7_failed_write_is_returned x86_64_linux 1700000000
              (dead_session ReturnsNegative) sample_token_hex (txt "hello") 5
              (txt "default") ReturnsNegative);
      [reflexivity | reflexivity | vm_compute; reflexivity].
Defined.

(** With a code queued, the same failure throws. *)
Lemma failed_write_with_code_throws (t : Target) (now : Z) (w : Ssl)
    (deviceToken body : text) (badge : Z) (sound : text) (f : failure)
    (code : Z) (rest frame : list _) :
  ssl_fault w = Some (f, []) ->
  ssl_errors w = code :: rest ->
  code <> 0 ->
  PushMessage_frame t now deviceToken body badge sound = Some frame ->
  fst (PushMessage t now w deviceToken body badge sound)
  = Thrown (SslError code 183).
Proof.
  intros Hw He Hc Hf. unfold PushMessage. rewrite Hf.
  unfold SSL_write. rewrite Hw, He.
  unfold ASSERT_SSL, ERR_get_error. cbn [ssl_errors app].
  apply Z.eqb_neq in Hc.
  destruct f; cbn [failure_ret Z.leb Z.compare]; rewrite app_nil_r, Hc;
    reflexivity.
Qed.

(** ** C8: the payload is cut at 255 bytes *)

(** C8, as stated, fails: for a body of 300 letters a, badge 5 and sound
    default the payload is not the filled-in template (352 bytes) but its
    first 255 bytes. *)
Lemma C8_long_body_is_truncated :
  ConstructAps (repeat Byte.x61 300) 5 (txt "default")
  <> aps_format (repeat Byte.x61 300) 5 (txt "default")
  /\ length (ConstructAps (repeat Byte.x61 300) 5 (txt "default")) = 255%nat
  /\ length (aps_format (repeat Byte.x61 300) 5 (txt "default")) = 352%nat.
Proof.
  assert (H255 : length (ConstructAps (repeat Byte.x61 300) 5 (txt "default"))
                 = 255%nat) by (vm_compute; reflexivity).
  assert (H352 : length (aps_format (repeat Byte.x61 300) 5 (txt "default"))
                 = 352%nat) by (vm_compute; reflexivity).
  repeat split; try assumption.
  intros E. rewrite E in H255. rewrite H255 in H352. discriminate.
Qed.

(** C8, amended: for every body, badge and sound the payload is the
    filled-in template cut to its first 255 bytes, with body and sound
    taken up to their first NUL byte: [snprintf] into the 256-byte buffer
    truncates silently. *)
Theorem C8_payload_is_template_cut_at_255 (body : text) (badge : Z)
    (sound : text) :
  ConstructAps body badge sound
  = firstn 255 (aps_format (c_str body) badge (c_str sound))
  /\ (length (ConstructAps body badge sound) <= 255)%nat.
Proof.
  split; [apply ConstructAps_eq | apply ConstructAps_length].
Qed.

(** So the payload is the template itself when that fits and the texts
    hold no NUL. *)
Lemma ConstructAps_exact (body : text) (badge : Z) (sound : text) :
  no_nul body = true -> no_nul sound = true ->
  (length (aps_format body badge sound) <= 255)%nat ->
  ConstructAps body badge sound = aps_format body badge sound.
Proof.
  intros Hb Hs Hlen. rewrite ConstructAps_eq.
  rewrite (c_str_no_nul body Hb), (c_str_no_nul sound Hs).
  now apply firstn_all2.
Qed.

(** ** C9: expiry is the identifier plus one day *)

(** C9: in every frame [PushMessage] builds, the identifier field holds
    the send time as a 32-bit unsigned value (in the host's byte order),
    and the expiry field holds, in network order, that value plus 86400
    wrapped to 32 bits. *)
Theorem C9_expiry_is_identifier_plus_86400 (t : Target) (now : Z)
    (deviceToken body : text) (badge : Z) (sound : text) (frame : list byte) :
  PushMessage_frame t now deviceToken body badge sound = Some frame ->
  load t (field 1 4 frame) = uint32_t now
  /\ be_value (field 5 4 frame) = uint32_t (load t (field 1 4 frame) + 86400).
Proof.
  intros Hf. apply PushMessage_frame_inv in Hf as (token & _ & Hlen & ->).
  destruct (notification_frame_layout t now token
              (ConstructAps body badge sound) Hlen) as (_ & Hid & Hexp & _).
  rewrite Hid, Hexp, load_store, be_value_be_bytes.
  unfold uint32_t. change (Z.of_nat 4 * 8) with 32.
  rewrite Z.mod_mod by lia. split; reflexivity.
Qed.

Lemma C9_expiry_is_identifier_plus_86400_witness :
  exists frame,
    PushMessage_frame x86_64_linux 4294967295 sample_token_hex
      (txt "hello") 5 (txt "default") = Some frame
    /\ load x86_64_linux (field 1 4 frame) = 4294967295
    /\ be_value (field 5 4 frame) = 86399.
Proof.
  eexists. split; [vm_compute; reflexivity|].
  match goal with
  | |- load _ (field 1 4 ?fr) = _ /\ _ =>
      destruct (C9_expiry_is_identifier_plus_86400 x86_64_linux 4294967295
                  sample_token_hex (txt "hello") 5 (txt "default") fr)
        as [Hid Hexp]
  end.
  - vm_compute. reflexivity.
  - split; [exact Hid|]. rewrite Hexp, Hid. reflexivity.
Defined.

(** ** C10: short tokens are padded, long tokens cut *)

Lemma pairs_firstn (k : nat) :
  forall s,
    nul_free_pairs s = true ->
    (k <= length (hex_pairs s))%nat ->
    nul_free_pairs (firstn (2 * k) s) = true
    /\ length (hex_pairs (firstn (2 * k) s)) = k
    /\ s = firstn (2 * k) s ++ skipn (2 * k) s.
Proof.
  induction k as [|k IH]; intros s Hs Hk.
  - repeat split.
  - destruct s as [|c0 [|c1 rest]]; try discriminate Hs;
      cbn [hex_pairs length] in Hk; [lia|].
    cbn [nul_free_pairs] in Hs. apply andb_prop in Hs as [H01 Hr].
    destruct (IH rest Hr ltac:(lia)) as (Hp & Hl & Hsplit).
    replace (2 * S k)%nat with (S (S (2 * k))) by lia.
    cbn [firstn skipn nul_free_pairs hex_pairs length app].
    rewrite H01, Hp, Hl, <- Hsplit. repeat split.
Qed.

(** Only the pairs that fill [buf] count: what comes after them may be
    replaced by anything. *)
Lemma Str2Hex_first_pairs (t : Target) (s extra : text) (szLen : nat) :
  nul_free_pairs s = true ->
  (szLen <= length (hex_pairs s))%nat ->
  Str2Hex t (firstn (2 * szLen) s ++ extra) szLen = Str2Hex t s szLen.
Proof.
  intros Hs Hlen. destruct (pairs_firstn szLen s Hs Hlen) as (Hp & Hl & Hsplit).
  unfold Str2Hex. f_equal.
  rewrite (Str2Hex_loop_cut t _ extra Hp) by lia.
  rewrite Hsplit at 2.
  rewrite (Str2Hex_loop_cut t _ (skipn (2 * szLen) s) Hp) by lia.
  reflexivity.
Qed.

(** C10: for a token made of pairs of hex digits, whatever their number,
    [PushMessage] builds a frame and raises nothing of its own: the token
    field holds one stored byte for each pair, 32 at most, followed by
    zero bytes up to 32; with 32 pairs or more only the first 64
    characters count, what follows them may be anything; and with a
    working transport the call returns the length of the frame. *)
Theorem C10_token_padded_or_cut (t : Target) (now : Z) (deviceToken body : text)
    (badge : Z) (sound : text) :
  is_hex_string deviceToken = true ->
  exists frame stored,
    PushMessage_frame t now deviceToken body badge sound = Some frame
    /\ field 11 32 frame = stored ++ repeat Byte.x00 (32 - length stored)
    /\ length stored = Nat.min 32 (length (hex_pairs deviceToken))
    /\ (forall extra,
          (32 <= length (hex_pairs deviceToken))%nat ->
          PushMessage_frame t now (firstn 64 deviceToken ++ extra)
            body badge sound = Some frame)
    /\ (forall w, ssl_fault w = None ->
        fst (PushMessage t now w deviceToken body badge sound)
        = Returned (Z.of_nat (length frame))).
Proof.
  intros Hhex. destruct (is_hex_string_nul_free deviceToken Hhex) as [Hp Hs].
  destruct (Str2Hex_defined t deviceToken 32 Hp Hs) as (stored & Htok & Hlen).
  pose proof (Str2Hex_length t _ _ _ Htok) as H32.
  assert (Hf : PushMessage_frame t now deviceToken body badge sound
               = Some (notification_frame t now
                         (stored ++ repeat Byte.x00 (32 - length stored))
                         (ConstructAps body badge sound)))
    by (unfold PushMessage_frame; now rewrite Htok).
  eexists. exists stored. split; [exact Hf|].
  destruct (notification_frame_layout t now _
              (ConstructAps body badge sound) H32)
    as (_ & _ & _ & _ & Hfield & _).
  repeat split.
  - exact Hfield.
  - exact Hlen.
  - intros extra Hge. unfold PushMessage_frame.
    change 64%nat with (2 * 32)%nat.
    rewrite (Str2Hex_first_pairs t deviceToken extra 32 Hp Hge), Htok.
    reflexivity.
  - intros w Hw. now rewrite (PushMessage_healthy t now w _ _ _ _ _ Hw Hf).
Qed.

Lemma C10_token_padded_or_cut_witness :
  exists frame stored,
    PushMessage_frame x86_64_linux 1700000000 (txt "abcd") (txt "hello") 5
      (txt "default") = Some frame
    /\ field 11 32 frame = stored ++ repeat Byte.x00 (32 - length stored)
    /\ length stored = 2%nat
    /\ fst (PushMessage x86_64_linux 1700000000 healthy_session (txt "abcd")
              (txt "hello") 5 (txt "default"))
       = Returned (Z.of_nat (length frame)).
Proof.
  destruct (C10_token_padded_or_cut x86_64_linux 1700000000 (txt "abcd")
              (txt "hello") 5 (txt "default") eq_refl)
    as (frame & stored & Hf & Hfield & Hlen & _ & Hret).
  exists frame, stored. split; [exact Hf|]. split; [exact Hfield|]. split.
  - exact Hlen.
  - apply Hret. reflexivity.
Defined.

(** * Further properties of the code *)

(** ** Hex2Str *)

(** X1: as long as [len] bytes are there to read, [Hex2Str] returns
    exactly [len] characters, one for each byte: the digit f for a byte of
    0x80 or more where [char] is signed, else the high digit of a byte of
    0x10 or more, else the byte's only digit. *)
Theorem X1_Hex2Str_one_char_per_byte (t : Target) (buf : list byte)
    (len : nat) :
  (len <= length buf)%nat ->
  exists h,
    Hex2Str t buf len = Some h
    /\ h = map (Hex2Str_char t) (firstn len buf)
    /\ length h = len.
Proof.
  intros Hlen. eexists. split; [now apply Hex2Str_map|]. split; [reflexivity|].
  rewrite length_map, length_firstn. lia.
Qed.

Lemma X1_Hex2Str_one_char_per_byte_witness :
  exists h,
    Hex2Str aarch64_linux [Byte.x0a; Byte.x1b; Byte.xff; Byte.x00] 3 = Some h
    /\ h = map (Hex2Str_char aarch64_linux)
             (firstn 3 [Byte.x0a; Byte.x1b; Byte.xff; Byte.x00])
    /\ length h = 3%nat.
Proof.
  apply (X1_Hex2Str_one_char_per_byte aarch64_linux
           [Byte.x0a; Byte.x1b; Byte.xff; Byte.x00] 3).
  cbn [length]. lia.
Defined.

(** X2: [Hex2Str] reads outside [buf] exactly when [len] exceeds the
    number of bytes in it. *)
Theorem X2_Hex2Str_defined_iff (t : Target) (buf : list byte) (len : nat) :
  Hex2Str t buf len = None <-> (length buf < len)%nat.
Proof.
  split.
  - intros H. destruct (Nat.le_gt_cases len (length buf)) as [Hle|Hgt];
      [|exact Hgt]. rewrite Hex2Str_map in H by exact Hle. discriminate.
  - apply Hex2Str_outside.
Qed.

(** X3: the low digit of a byte of 0x10 or more never shows: two buffers
    of such bytes that agree on the high digits get the same text. *)
Theorem X3_Hex2Str_drops_low_digit (t : Target) (buf1 buf2 : list byte) :
  Forall (fun b => 16 <= byte.unsigned b) buf1 ->
  Forall (fun b => 16 <= byte.unsigned b) buf2 ->
  map (fun b => byte.unsigned b / 16) buf1
  = map (fun b => byte.unsigned b / 16) buf2 ->
  Hex2Str t buf1 (length buf1) = Hex2Str t buf2 (length buf2).
Proof.
  intros H1 H2 Hmap.
  rewrite !Hex2Str_map, !firstn_all by lia. f_equal.
  revert buf2 H2 Hmap.
  induction H1 as [|b1 r1 Hb1 Hr1 IH]; intros [|b2 r2] H2 Hmap;
    try discriminate; [reflexivity|].
  inversion H2 as [|? ? Hb2 Hr2]; subst.
  cbn [map] in *. injection Hmap as Hhd Htl.
  f_equal; [|now apply IH].
  unfold Hex2Str_char.
  assert (E : (128 <=? byte.unsigned b1) = (128 <=? byte.unsigned b2)).
  { destruct (Z.leb_spec 128 (byte.unsigned b1));
      destruct (Z.leb_spec 128 (byte.unsigned b2)); try reflexivity;
      exfalso; Z.to_euclidean_division_equations; lia. }
  rewrite E.
  destruct (Z.leb_spec 16 (byte.unsigned b1)); [|lia].
  destruct (Z.leb_spec 16 (byte.unsigned b2)); [|lia].
  now rewrite Hhd.
Qed.

Lemma X3_Hex2Str_drops_low_digit_witness :
  Hex2Str x86_64_linux [Byte.x10; Byte.x2f] 2
  = Hex2Str x86_64_linux [Byte.x1c; Byte.x20] 2.
Proof.
  apply (X3_Hex2Str_drops_low_digit x86_64_linux
           [Byte.x10; Byte.x2f] [Byte.x1c; Byte.x20]).
  - repeat constructor; vm_compute; discriminate.
  - repeat constructor; vm_compute; discriminate.
  - reflexivity.
Defined.

(** X4: where [char] is signed, every byte of 0x80 or more is rendered as
    the single letter f. *)
Theorem X4_Hex2Str_high_bytes_are_f (t : Target) (buf : list byte) :
  char_is_signed t = true ->
  Forall (fun b => 128 <= byte.unsigned b) buf ->
  Hex2Str t buf (length buf) = Some (repeat Byte.x66 (length buf)).
Proof.
  intros Hs Hbuf. rewrite Hex2Str_map, firstn_all by lia. f_equal.
  induction Hbuf as [|b rest Hb _ IH]; [reflexivity|].
  cbn [map length repeat]. f_equal; [|exact IH].
  unfold Hex2Str_char. rewrite Hs.
  destruct (Z.leb_spec 128 (byte.unsigned b)); [reflexivity|lia].
Qed.

Lemma X4_Hex2Str_high_bytes_are_f_witness :
  Hex2Str x86_64_linux [Byte.xab; Byte.xcd; Byte.x80] 3
  = Some [Byte.x66; Byte.x66; Byte.x66].
Proof.
  apply (X4_Hex2Str_high_bytes_are_f x86_64_linux
           [Byte.xab; Byte.xcd; Byte.x80]).
  - reflexivity.
  - repeat constructor; vm_compute; discriminate.
Defined.

(** ** Str2Hex *)

(** X5: whatever the string, when [Str2Hex] has defined behaviour the
    buffer holds exactly [szLen] bytes afterwards: the loop never stores
    past the end of [buf]. *)
Theorem X5_Str2Hex_fills_szLen_bytes (t : Target) (str : text) (szLen : nat)
    (buf : list byte) :
  Str2Hex t str szLen = Some buf -> length buf = szLen.
Proof.
  unfold Str2Hex.
  destruct (Str2Hex_loop t (str ++ [Byte.x00]) szLen None) as [stored|] eqn:E;
    [|discriminate].
  intros [= <-]. apply Str2Hex_loop_length in E.
  rewrite length_app, repeat_length. lia.
Qed.

Lemma X5_Str2Hex_fills_szLen_bytes_witness :
  length [Byte.xab; Byte.xab; Byte.x00; Byte.x00] = 4%nat.
Proof.
  apply (X5_Str2Hex_fills_szLen_bytes x86_64_linux (txt "abzz") 4).
  vm_compute. reflexivity.
Defined.






(** With [ch] behind [tmp] on a little-endian host the digits 61626364
    are stored as 61 2a 63 4c, and 61zz62 as 61 61 2a; with the bytes of
    [ch] most significant first a NUL follows [tmp] and 61626364 is
    stored as it reads. *)
Lemma Str2Hex_over_read_samples :
  Str2Hex x86_64_linux (txt "61626364") 4
  = Some [Byte.x61; Byte.x2a; Byte.x63; Byte.x4c]
  /\ Str2Hex x86_64_linux (txt "61zz62") 4
     = Some [Byte.x61; Byte.x61; Byte.x2a; Byte.x00]
  /\ Str2Hex sparc_solaris (txt "61626364") 4
     = Some [Byte.x61; Byte.x62; Byte.x63; Byte.x64].
Proof. repeat split; vm_compute; reflexivity. Qed.

Lemma Str2Hex_loop_odd (t : Target) (c : byte) (s : text) :
  is_nul c = false ->
  nul_free_pairs s = true ->
  forall szLen ch,
    (length (hex_pairs s) < szLen)%nat ->
    Str2Hex_loop t ((s ++ [c]) ++ [Byte.x00]) szLen ch = None.
Proof.
  intros Hc. revert s.
  apply (nul_free_pairs_ind (fun s => forall szLen ch,
    (length (hex_pairs s) < szLen)%nat ->
    Str2Hex_loop t ((s ++ [c]) ++ [Byte.x00]) szLen ch = None)).
  - intros [|n] ch Hlen; [cbn in Hlen; lia|].
    cbn [app Str2Hex_loop]. rewrite Hc.
    destruct (match sscanf_x (c_str (c :: Byte.x00 :: behind_tmp t n ch)) with
              | Some v => Some v | None => ch end); reflexivity.
  - intros c0 c1 rest H0 H1 Hr IH [|n] ch Hlen; [cbn in Hlen; lia|].
    cbn [app Str2Hex_loop]. rewrite H0.
    destruct (match sscanf_x (c_str (c0 :: c1 :: behind_tmp t n ch)) with
              | Some v => Some v | None => ch end); [|reflexivity].
    rewrite IH by (cbn [hex_pairs length] in Hlen; lia). reflexivity.
Qed.

(** X7: a string of digit pairs followed by one more character, when the
    pairs do not fill [buf], takes [Str2Hex] past the string's terminator:
    the odd character is paired with the NUL and the loop then tests the
    byte behind it. *)
Theorem X7_Str2Hex_odd_length_overruns (t : Target) (s : text) (c : byte)
    (szLen : nat) :
  is_hex_string s = true ->
  is_nul c = false ->
  (length (hex_pairs s) < szLen)%nat ->
  Str2Hex t (s ++ [c]) szLen = None.
Proof.
  intros Hs Hc Hlen. unfold Str2Hex.
  destruct (is_hex_string_nul_free s Hs) as [Hp _].
  now rewrite (Str2Hex_loop_odd t c s Hc Hp szLen None Hlen).
Qed.

Lemma X7_Str2Hex_odd_length_overruns_witness :
  Str2Hex x86_64_linux (txt "abc") 32 = None.
Proof.
  apply (X7_Str2Hex_odd_length_overruns x86_64_linux (txt "ab") Byte.x63 32).
  - reflexivity.
  - reflexivity.
  - cbn. lia.
Defined.

(** Whatever follows it, a text that begins with a character no number
    can start with is not converted. *)
Lemma sscanf_x_unscannable (c0 : byte) (mem : list byte) :
  unscannable c0 = true -> is_nul c0 = false ->
  sscanf_x (c_str (c0 :: mem)) = None.
Proof.
  unfold unscannable. intros H Hn.
  apply andb_prop in H as [H H43]. apply andb_prop in H as [H H45].
  apply andb_prop in H as [Hhex Hsp].
  apply negb_true_iff in H43, H45, Hhex, Hsp.
  assert (H48 : (byte.unsigned c0 =? 48) = false).
  { destruct (Z.eqb_spec (byte.unsigned c0) 48) as [E|]; [|reflexivity].
    unfold is_hex, hex_value in Hhex. rewrite E in Hhex. discriminate Hhex. }
  cbn [c_str]. rewrite Hn.
  unfold sscanf_x. cbn [skip_space]. rewrite Hsp, H45, H43.
  destruct (c_str mem) as [|x [|h r]]; cbv beta iota zeta;
    rewrite ?H48; cbn [andb]; rewrite Hhex; reflexivity.
Qed.

(** X8: a pair that does not scan stores once more the byte stored for
    the pair before it: [sscanf] leaves [ch] as it was and its result is
    not tested.  This holds whatever lies behind [tmp]. *)
Theorem X8_Str2Hex_repeats_previous_byte (t : Target) (a0 a1 c0 c1 : byte)
    (rest : text) (szLen : nat) :
  is_hex a0 = true ->
  unscannable c0 = true -> is_nul c0 = false ->
  nul_free_pairs rest = true ->
  (2 <= szLen)%nat ->
  exists b tail,
    Str2Hex t (a0 :: a1 :: c0 :: c1 :: rest) szLen
    = Some (b :: b :: tail ++ repeat Byte.x00 (szLen - 2 - length tail))
    /\ length tail = Nat.min (szLen - 2) (length (hex_pairs rest)).
Proof.
  intros Ha0 Hu Hc0 Hrest Hlen.
  destruct szLen as [|[|n]]; try lia.
  unfold Str2Hex. cbn [app Str2Hex_loop].
  rewrite (is_hex_not_nul a0 Ha0).
  destruct (sscanf_x_c_str_starts_hex a0 (a1 :: behind_tmp t (S n) None) Ha0)
    as [v ->].
  rewrite Hc0, (sscanf_x_unscannable c0 _ Hu Hc0).
  destruct (Str2Hex_loop_assigned t rest Hrest n v) as (tail & -> & Htail).
  exists (byte.of_Z v), tail. cbn [option_map length Nat.sub app].
  rewrite !Nat.sub_0_r. split; [reflexivity | exact Htail].
Qed.

Lemma X8_Str2Hex_repeats_previous_byte_witness :
  exists b tail,
    Str2Hex x86_64_linux (txt "abzz01") 4
    = Some (b :: b :: tail ++ repeat Byte.x00 (4 - 2 - length tail))
    /\ length tail = Nat.min (4 - 2) (length (hex_pairs (txt "01"))).
Proof.
  apply (X8_Str2Hex_repeats_previous_byte x86_64_linux
           Byte.x61 Byte.x62 Byte.x7a Byte.x7a (txt "01") 4);
    try reflexivity.
  lia.
Defined.

(** X9: when the first pair does not scan, the loop stores the local
    [ch] before anything was assigned to it: the value read is not
    defined. *)
Theorem X9_Str2Hex_first_pair_unassigned (t : Target) (c0 c1 : byte)
    (rest : text) (szLen : nat) :
  unscannable c0 = true -> is_nul c0 = false -> (0 < szLen)%nat ->
  Str2Hex t (c0 :: c1 :: rest) szLen = None.
Proof.
  intros Hu Hc0 Hlen. unfold Str2Hex. cbn [app Str2Hex_loop].
  rewrite Hc0. destruct szLen as [|n]; [lia|].
  rewrite (sscanf_x_unscannable c0 _ Hu Hc0). reflexivity.
Qed.

Lemma X9_Str2Hex_first_pair_unassigned_witness :
  Str2Hex x86_64_linux (txt "zz0102") 32 = None.
Proof.
  apply (X9_Str2Hex_first_pair_unassigned x86_64_linux Byte.x7a Byte.x7a
           (txt "0102") 32);
    [reflexivity | reflexivity | lia].
Defined.

(** ** ConstructAps *)

(** X10: when body and sound hold no NUL byte and the filled-in format
    has at most 255 bytes, the payload is exactly that text: body and
    sound are copied as they are, quotes and backslashes included. *)
Theorem X10_ConstructAps_exact_when_it_fits (body : text) (badge : Z)
    (sound : text) :
  no_nul body = true -> no_nul sound = true ->
  (length (aps_format body badge sound) <= 255)%nat ->
  ConstructAps body badge sound = aps_format body badge sound.
Proof.
  intros Hb Hs Hlen. rewrite ConstructAps_eq.
  rewrite (c_str_no_nul body), (c_str_no_nul sound) by assumption.
  apply firstn_all2. exact Hlen.
Qed.

Lemma X10_ConstructAps_exact_when_it_fits_witness :
  ConstructAps [dq; Byte.x5c] (-7) (txt "default")
  = aps_format [dq; Byte.x5c] (-7) (txt "default").
Proof.
  apply (X10_ConstructAps_exact_when_it_fits [dq; Byte.x5c] (-7)
           (txt "default")); [reflexivity | reflexivity | vm_compute; lia].
Defined.

Lemma c_str_cut (l r : text) : c_str (l ++ Byte.x00 :: r) = c_str l.
Proof.
  induction l as [|c l IH]; cbn [app c_str]; [reflexivity|].
  now rewrite IH.
Qed.

(** X11: what follows a NUL byte in body, in sound, or in both, never
    reaches the payload. *)
Theorem X11_ConstructAps_stops_at_NUL (body body' sound sound' : text)
    (badge : Z) :
  ConstructAps (body ++ Byte.x00 :: body') badge sound
  = ConstructAps body badge sound
  /\ ConstructAps body badge (sound ++ Byte.x00 :: sound')
     = ConstructAps body badge sound
  /\ ConstructAps (body ++ Byte.x00 :: body') badge
       (sound ++ Byte.x00 :: sound')
     = ConstructAps body badge sound.
Proof. rewrite !ConstructAps_eq, !c_str_cut. repeat split. Qed.

(** ** PushMessage *)

(** X12: every frame [PushMessage] builds has between 45 and 300 bytes,
    so the 1024 bytes of [buf] are never exceeded. *)
Theorem X12_frame_fits_buf (t : Target) (now : Z) (deviceToken body : text)
    (badge : Z) (sound : text) (frame : list byte) :
  PushMessage_frame t now deviceToken body badge sound = Some frame ->
  (45 <= length frame <= 300)%nat.
Proof.
  intros Hf. apply PushMessage_frame_inv in Hf as (token & _ & Hlen & ->).
  rewrite notification_frame_length, Hlen.
  pose proof (ConstructAps_length body badge sound). lia.
Qed.

Lemma X12_frame_fits_buf_witness :
  exists frame,
    PushMessage_frame x86_64_linux 1700000000 sample_token_hex
      (repeat Byte.x61 300) 5 (txt "default") = Some frame
    /\ (45 <= length frame <= 300)%nat.
Proof.
  destruct (PushMessage_frame x86_64_linux 1700000000 sample_token_hex
              (repeat Byte.x61 300) 5 (txt "default")) as [frame|] eqn:E.
  - exists frame. split; [reflexivity|].
    apply (X12_frame_fits_buf x86_64_linux 1700000000 sample_token_hex
             (repeat Byte.x61 300) 5 (txt "default") frame E).
  - vm_compute in E. discriminate E.
Defined.

(** X13: in every frame the command byte is 1, the token-length field at
    offsets 9-10 is 00 20, the token field at 11-42 is the array filled by
    [Str2Hex], the field at 43-44 is the big-endian length of the payload,
    and the payload of [ConstructAps] is all that follows. *)
Theorem X13_frame_layout (t : Target) (now : Z) (deviceToken body : text)
    (badge : Z) (sound : text) (frame : list byte) :
  PushMessage_frame t now deviceToken body badge sound = Some frame ->
  field 0 1 frame = [Byte.x01]
  /\ field 9 2 frame = [Byte.x00; Byte.x20]
  /\ Str2Hex t deviceToken 32 = Some (field 11 32 frame)
  /\ be_value (field 43 2 frame) = Z.of_nat (length (skipn 45 frame))
  /\ skipn 45 frame = ConstructAps body badge sound
  /\ length frame = (45 + length (ConstructAps body badge sound))%nat.
Proof.
  intros Hf. apply PushMessage_frame_inv in Hf as (token & Htok & Hlen & ->).
  destruct (notification_frame_layout t now token
              (ConstructAps body badge sound) Hlen)
    as (Hcmd & _ & _ & Htl & Hfield & Hpl & Haps).
  rewrite Hcmd, Htl, Hfield, Hpl, Haps, be_value_be_bytes.
  rewrite notification_frame_length, Hlen.
  repeat split; try assumption; try lia.
  pose proof (ConstructAps_length body badge sound).
  apply Z.mod_small. change (2 ^ (Z.of_nat 2 * 8)) with 65536. lia.
Qed.

Lemma X13_frame_layout_witness :
  exists frame,
    PushMessage_frame sparc_solaris 12 (txt "ab") (txt "hi") 0 [] = Some frame
    /\ field 9 2 frame = [Byte.x00; Byte.x20]
    /\ skipn 45 frame = ConstructAps (txt "hi") 0 [].
Proof.
  eexists. split; [vm_compute; reflexivity|].
  match goal with
  | |- field 9 2 ?fr = _ /\ _ =>
      destruct (X13_frame_layout sparc_solaris 12 (txt "ab") (txt "hi") 0 [] fr)
        as (_ & Htl & _ & _ & Haps & _)
  end.
  - vm_compute. reflexivity.
  - split; assumption.
Defined.

(** X14: with a working transport [PushMessage] returns the length of
    the frame, has written exactly the frame after what was written
    before, and leaves pending input and error queue as they were. *)
Theorem X14_PushMessage_writes_the_frame (t : Target) (now : Z) (w : Ssl)
    (deviceToken body : text) (badge : Z) (sound : text) (frame : list byte) :
  ssl_fault w = None ->
  PushMessage_frame t now deviceToken body badge sound = Some frame ->
  exists w',
    PushMessage t now w deviceToken body badge sound
    = (Returned (Z.of_nat (length frame)), w')
    /\ ssl_sent w' = ssl_sent w ++ frame
    /\ ssl_pending w' = ssl_pending w
    /\ ssl_errors w' = ssl_errors w.
Proof.
  intros Hw Hf. eexists. split; [now apply PushMessage_healthy|].
  repeat split.
Qed.

Lemma X14_PushMessage_writes_the_frame_witness :
  exists w',
    PushMessage x86_64_linux 1700000000 (mkSsl [] [7] None [Byte.x2a])
      sample_token_hex (txt "hello") 5 (txt "default")
    = (Returned 102, w')
    /\ length (ssl_sent w') = 103%nat /\ ssl_errors w' = [7].
Proof.
  destruct (X14_PushMessage_writes_the_frame x86_64_linux 1700000000
              (mkSsl [] [7] None [Byte.x2a]) sample_token_hex (txt "hello") 5
              (txt "default")
              (notification_frame x86_64_linux 1700000000 sample_token_bytes
                 (ConstructAps (txt "hello") 5 (txt "default"))))
    as (w' & Hret & Hsent & _ & Herr).
  - reflexivity.
  - vm_compute. reflexivity.
  - exists w'. split; [|split].
    + rewrite Hret. vm_compute. reflexivity.
    + rewrite Hsent. vm_compute. reflexivity.
    + exact Herr.
Defined.

(** X15: when the write fails and a code is queued, [PushMessage] throws
    the SSL error of line 183 with the oldest code of the queue, which may
    stem from an earlier failure; it takes that one code off the queue and
    writes nothing. *)
Theorem X15_PushMessage_throws_oldest_code (t : Target) (now : Z) (w : Ssl)
    (deviceToken body : text) (badge : Z) (sound : text) (frame : list byte)
    (f : failure) (codes : list Z) (code : Z) (rest : list Z) :
  ssl_fault w = Some (f, codes) ->
  ssl_errors w ++ codes = code :: rest ->
  code <> 0 ->
  PushMessage_frame t now deviceToken body badge sound = Some frame ->
  PushMessage t now w deviceToken body badge sound
  = (Thrown (SslError code 183),
     mkSsl (ssl_pending w) rest (ssl_fault w) (ssl_sent w)).
Proof.
  intros Hw He Hc Hf. unfold PushMessage. rewrite Hf.
  unfold SSL_write. rewrite Hw.
  unfold ASSERT_SSL, ERR_get_error. cbn [ssl_errors ssl_pending ssl_fault ssl_sent].
  rewrite He. apply Z.eqb_neq in Hc.
  destruct f; cbn [failure_ret Z.leb Z.compare]; rewrite Hc; reflexivity.
Qed.

Lemma X15_PushMessage_throws_oldest_code_witness :
  PushMessage x86_64_linux 1700000000
    (mkSsl [] [5] (Some (ReturnsNegative, [9])) [])
    sample_token_hex (txt "hello") 5 (txt "default")
  = (Thrown (SslError 5 183), mkSsl [] [9] (Some (ReturnsNegative, [9])) []).
Proof.
  eapply (X15_PushMessage_throws_oldest_code x86_64_linux 1700000000
            (mkSsl [] [5] (Some (ReturnsNegative, [9])) [])
            sample_token_hex (txt "hello") 5 (txt "default") _
            ReturnsNegative [9] 5 [9]).
  - reflexivity.
  - reflexivity.
  - discriminate.
  - vm_compute. reflexivity.
Defined.

(** ** FeedBack: the decode step *)

Lemma be_value_bound (bs : list byte) :
  0 <= be_value bs < 2 ^ (8 * Z.of_nat (length bs)).
Proof.
  unfold be_value. rewrite <- length_rev. apply le_combine_bound.
Qed.

(** [ntohl] after the copy into a 32-bit object reads four bytes as a
    big-endian number, on either kind of host. *)
Lemma ntohl_load (t : Target) (bs : list byte) :
  length bs = 4%nat -> ntohl t (load t bs) = be_value bs.
Proof.
  intros Hlen. unfold ntohl, htonl, load, be_value, bswap.
  destruct (little_endian t).
  - rewrite <- Hlen, split_le_combine. reflexivity.
  - pose proof (be_value_bound bs) as Hb. rewrite Hlen in Hb.
    unfold be_value in Hb. unfold uint32_t. apply Z.mod_small.
    change (2 ^ (8 * Z.of_nat 4)) with (2 ^ 32) in Hb. exact Hb.
Qed.

(** Swapping the four bytes of a value below 65536 leaves nothing in the
    low 16 bits. *)
Lemma bswap_4_of_short (v : Z) :
  0 <= v < 2 ^ 16 -> uint16_t (bswap 4 v) = 0.
Proof.
  intros Hv. unfold uint16_t, bswap. cbv [le_split rev app le_combine].
  rewrite !Z.shiftr_shiftr by lia. cbn [Z.add Pos.add Pos.succ].
  rewrite (Z.shiftr_div_pow2 v 16), (Z.shiftr_div_pow2 v 24) by lia.
  rewrite (Z.div_small v (2 ^ 16)) by lia.
  rewrite (Z.div_small v (2 ^ 24)) by lia.
  change (byte.unsigned (byte.of_Z 0)) with 0.
  rewrite !Z.lor_0_l, Z.shiftl_shiftl by lia.
  rewrite Z.shiftl_mul_pow2 by lia. apply Z.mod_mul. lia.
Qed.

Lemma load_short_bound (t : Target) (bs : list byte) :
  (length bs <= 2)%nat -> 0 <= load t bs < 2 ^ 16.
Proof.
  intros Hlen.
  assert (H : forall l : list byte, (length l <= 2)%nat ->
                                    0 <= le_combine l < 2 ^ 16).
  { intros l Hl. pose proof (le_combine_bound l) as Hb.
    assert (2 ^ (8 * Z.of_nat (length l)) <= 2 ^ 16)
      by (apply Z.pow_le_mono_r; lia). lia. }
  unfold load. destruct (little_endian t); apply H; [|rewrite length_rev];
    exact Hlen.
Qed.

(** X16: on every host the timestamp of a record is the first four bytes
    of the frame read as a big-endian number. *)
Theorem X16_FeedBack_timestamp_big_endian (t : Target) (buf : list byte)
    (r : ApnsFeedback) :
  (4 <= length buf)%nat ->
  FeedBack_decode t buf = Some r ->
  tm r = be_value (firstn 4 buf).
Proof.
  intros Hlen. unfold FeedBack_decode.
  destruct (Hex2Str t _ _) as [h|]; [|discriminate].
  cbn [option_map]. intros [= <-]. cbn [tm].
  apply ntohl_load. rewrite length_firstn. lia.
Qed.

Lemma X16_FeedBack_timestamp_big_endian_witness :
  tm (mkFeedback 10 0 []) = be_value (firstn 4 sample_feedback_buf).
Proof.
  apply (X16_FeedBack_timestamp_big_endian x86_64_linux sample_feedback_buf).
  - cbn. lia.
  - vm_compute. reflexivity.
Defined.

Lemma FeedBack_decode_little_endian (t : Target) (buf : list byte) :
  little_endian t = true ->
  exists r,
    FeedBack_decode t buf = Some r /\ len r = 0 /\ token r = [].
Proof.
  intros Hle. unfold FeedBack_decode.
  assert (E : uint16_t (ntohl t (load t (firstn 2 (skipn 4 buf)))) = 0).
  { unfold ntohl, htonl. rewrite Hle. apply bswap_4_of_short.
    apply load_short_bound. apply firstn_le_length. }
  rewrite E. cbn [Z.to_nat Hex2Str option_map].
  eexists. repeat split.
Qed.

(** X17: on a little-endian host every record has length 0 and an empty
    token, whatever the frame holds: [ntohl] moves the two length bytes
    into the upper half of the word, which the cast to 16 bits drops. *)
Theorem X17_FeedBack_little_endian_token_empty (t : Target) (buf : list byte) :
  little_endian t = true ->
  exists r,
    FeedBack_decode t buf = Some r /\ len r = 0 /\ token r = [].
Proof.
  intros Hle. unfold FeedBack_decode.
  replace (uint16_t (ntohl t (load t (firstn 2 (skipn 4 buf))))) with 0.
  - cbn [Z.to_nat Hex2Str option_map]. eexists. repeat split.
  - symmetry. unfold ntohl, htonl. rewrite Hle. apply bswap_4_of_short.
    apply load_short_bound. apply firstn_le_length.
Qed.

Lemma X17_FeedBack_little_endian_token_empty_witness :
  exists r,
    FeedBack_decode x86_64_linux sample_feedback_buf = Some r
    /\ len r = 0 /\ token r = [].
Proof.
  apply (X17_FeedBack_little_endian_token_empty x86_64_linux
           sample_feedback_buf).
  reflexivity.
Defined.

Lemma ntohl_load_short (t : Target) (bs : list byte) :
  little_endian t = false -> (length bs <= 2)%nat ->
  uint16_t (ntohl t (load t bs)) = be_value bs.
Proof.
  intros Hbe Hlen. pose proof (load_short_bound t bs Hlen) as Hb.
  unfold ntohl, htonl. rewrite Hbe. unfold uint32_t, uint16_t.
  rewrite (Z.mod_small (load t bs) (2 ^ 32)) by lia.
  rewrite Z.mod_small by lia. unfold load, be_value. now rewrite Hbe.
Qed.

(** X18: on a big-endian host the length is the two bytes at offsets 4-5
    read as a big-endian number; up to 32 the token text has one character
    for each of that many bytes from offset 6 on, and beyond 32 [Hex2Str]
    is sent past the end of the 38-byte buffer. *)
Theorem X18_FeedBack_big_endian_token (t : Target) (buf : list byte) :
  little_endian t = false ->
  length buf = 38%nat ->
  let n := be_value (field 4 2 buf) in
  (n <= 32 ->
   exists r,
     FeedBack_decode t buf = Some r /\ len r = n
     /\ token r = map (Hex2Str_char t) (field 6 (Z.to_nat n) buf))
  /\ (32 < n -> FeedBack_decode t buf = None).
Proof.
  intros Hbe Hlen n. subst n. unfold field.
  assert (E : uint16_t (ntohl t (load t (firstn 2 (skipn 4 buf))))
              = be_value (firstn 2 (skipn 4 buf))).
  { apply ntohl_load_short; [exact Hbe | apply firstn_le_length]. }
  pose proof (be_value_bound (firstn 2 (skipn 4 buf))) as Hb.
  assert (Hrest : length (skipn 2 (skipn 4 buf)) = 32%nat)
    by (rewrite !length_skipn; lia).
  replace (skipn 6 buf) with (skipn 2 (skipn 4 buf))
    by (rewrite skipn_skipn; reflexivity).
  unfold FeedBack_decode. rewrite E. split.
  - intros Hn. rewrite Hex2Str_map by (rewrite Hrest; lia).
    eexists. repeat split.
  - intros Hn. rewrite Hex2Str_outside by (rewrite Hrest; lia). reflexivity.
Qed.

Lemma X18_FeedBack_big_endian_token_witness :
  (exists r,
      FeedBack_decode ppc_linux sample_feedback_buf = Some r /\ len r = 2
      /\ token r = [Byte.x61; Byte.x63])
  /\ FeedBack_decode ppc_linux
       ([Byte.x00; Byte.x00; Byte.x00; Byte.x0a; Byte.x00; Byte.x21]
        ++ repeat Byte.x00 32) = None.
Proof.
  split.
  - destruct (X18_FeedBack_big_endian_token ppc_linux sample_feedback_buf
                eq_refl eq_refl) as [Hsmall _].
    destruct Hsmall as (r & Hr & Hlen & Htok); [vm_compute; discriminate|].
    exists r. split; [exact Hr|]. split.
    + rewrite Hlen. reflexivity.
    + rewrite Htok. reflexivity.
  - destruct (X18_FeedBack_big_endian_token ppc_linux
                ([Byte.x00; Byte.x00; Byte.x00; Byte.x0a; Byte.x00; Byte.x21]
                 ++ repeat Byte.x00 32) eq_refl eq_refl) as [_ Hbig].
    apply Hbig. reflexivity.
Defined.

(** ** FeedBack: the drain *)

(** X19: with at most 38 bytes pending [FeedBack] returns at once: it
    reads nothing, throws nothing, and leaves the caller's vector and the
    session as they are. *)
Theorem X19_FeedBack_idle_up_to_38 (fuel : nat) (t : Target) (w : Ssl)
    (feedbacks : list ApnsFeedback) :
  (length (ssl_pending w) <= 38)%nat ->
  FeedBack (S fuel) t w feedbacks = Some (Returned tt, feedbacks, w).
Proof.
  intros H. cbn [FeedBack]. unfold SSL_pending, feedback_buf_size.
  destruct (Z.geb_spec (Z.of_nat 38) (Z.of_nat (length (ssl_pending w))));
    [reflexivity | lia].
Qed.

Lemma X19_FeedBack_idle_up_to_38_witness :
  FeedBack 1 sparc_solaris
    (mkSsl [Byte.x00; Byte.x01] [3] (Some (ReturnsZero, [])) [])
    [mkFeedback 1 0 []]
  = Some (Returned tt, [mkFeedback 1 0 []],
          mkSsl [Byte.x00; Byte.x01] [3] (Some (ReturnsZero, [])) []).
Proof.
  apply (X19_FeedBack_idle_up_to_38 0 sparc_solaris). cbn. lia.
Defined.

(** X20: on a little-endian host with a working transport the drain
    returns; it appends one record for each 38 bytes it takes from the
    front of the pending input, keeps the records the vector held, stops
    with 38 bytes or fewer still pending, and never takes the last byte:
    a frame that ends the pending input stays unread.  Every record it
    appends has length 0 and an empty token. *)
Theorem X20_FeedBack_drain_little_endian (t : Target) (fuel : nat) :
  forall (w : Ssl) (feedbacks : list ApnsFeedback),
    little_endian t = true ->
    ssl_fault w = None ->
    (length (ssl_pending w) <= fuel)%nat ->
    exists recs w',
      FeedBack (S fuel) t w feedbacks = Some (Returned tt, feedbacks ++ recs, w')
      /\ ssl_pending w' = skipn (38 * length recs) (ssl_pending w)
      /\ (length (ssl_pending w) = 38 * length recs + length (ssl_pending w'))%nat
      /\ (length (ssl_pending w') <= 38)%nat
      /\ (recs <> [] -> (1 <= length (ssl_pending w'))%nat)
      /\ Forall (fun r => len r = 0 /\ token r = []) recs
      /\ ssl_errors w' = ssl_errors w /\ ssl_sent w' = ssl_sent w.
Proof.
  induction fuel as [|n IH]; intros w feedbacks Hle Hw Hlen.
  - exists [], w. rewrite FeedBack_idle by lia. rewrite app_nil_r.
    cbn [length Nat.mul skipn]. repeat split; try lia; try constructor.
    intros H; now elim H.
  - destruct (Nat.le_gt_cases (length (ssl_pending w)) 38) as [Hsmall|Hbig].
    + exists [], w. rewrite FeedBack_idle by lia. rewrite app_nil_r.
      cbn [length Nat.mul skipn]. repeat split; try lia; try constructor.
      intros H; now elim H.
    + destruct (FeedBack_decode_little_endian t (firstn 38 (ssl_pending w)) Hle)
        as (r & Hr & Hrlen & Hrtok).
      rewrite (FeedBack_reads (S n) t w feedbacks r Hbig Hw Hr).
      destruct (IH (mkSsl (skipn 38 (ssl_pending w)) (ssl_errors w) None
                      (ssl_sent w)) (feedbacks ++ [r]) Hle eq_refl)
        as (recs & w' & Hrun & Hpend & Hcount & Hleft & Hlast & Hall & Herr & Hsent).
      { cbn [ssl_pending]. rewrite length_skipn. lia. }
      cbn [ssl_pending ssl_errors ssl_sent] in *.
      rewrite length_skipn in Hcount.
      exists (r :: recs), w'. rewrite Hrun, <- app_assoc. cbn [app length].
      repeat split; try assumption; try lia.
      * rewrite Hpend, skipn_skipn. f_equal. lia.
      * intros _. destruct recs as [|r' recs']; [|apply Hlast; discriminate].
        cbn [length Nat.mul Nat.add] in Hcount. lia.
      * constructor; [split; assumption | exact Hall].
Qed.

Lemma X20_FeedBack_drain_little_endian_witness :
  exists recs w',
    FeedBack 78 x86_64_linux
      (mkSsl (sample_feedback_buf ++ sample_feedback_buf ++ [Byte.x01]) []
             None []) []
    = Some (Returned tt, recs, w')
    /\ length recs = 2%nat /\ ssl_pending w' = [Byte.x01].
Proof.
  destruct (X20_FeedBack_drain_little_endian x86_64_linux 77
              (mkSsl (sample_feedback_buf ++ sample_feedback_buf ++ [Byte.x01])
                     [] None []) [] eq_refl eq_refl)
    as (recs & w' & Hrun & Hpend & Hcount & Hleft & _).
  - vm_compute. lia.
  - exists recs, w'. split; [exact Hrun|].
    assert (Hn : length recs = 2%nat).
    { cbn [ssl_pending] in Hcount.
      change (length (sample_feedback_buf ++ sample_feedback_buf ++ [Byte.x01]))
        with 77%nat in Hcount. lia. }
    split; [exact Hn|]. rewrite Hpend, Hn. reflexivity.
Defined.

Lemma FeedBack_outcome (t : Target) (fuel : nat) :
  forall (w : Ssl) (feedbacks : list ApnsFeedback),
    ssl_fault w = None ->
    (length (ssl_pending w) <= fuel)%nat ->
    exists out recs w',
      FeedBack (S fuel) t w feedbacks = Some (out, feedbacks ++ recs, w')
      /\ (out = Returned tt \/ (out = Undefined /\ little_endian t = false)).
Proof.
  induction fuel as [|n IH]; intros w feedbacks Hw Hlen.
  - exists (Returned tt), [], w. rewrite FeedBack_idle, app_nil_r by lia. auto.
  - destruct (Nat.le_gt_cases (length (ssl_pending w)) 38) as [Hsmall|Hbig].
    + exists (Returned tt), [], w.
      rewrite FeedBack_idle, app_nil_r by lia. auto.
    + destruct (FeedBack_decode t (firstn 38 (ssl_pending w))) as [r|] eqn:Hr.
      * rewrite (FeedBack_reads (S n) t w feedbacks r Hbig Hw Hr).
        destruct (IH (mkSsl (skipn 38 (ssl_pending w)) (ssl_errors w) None
                        (ssl_sent w)) (feedbacks ++ [r]) eq_refl)
          as (out & recs & w' & Hrun & Hout).
        { cbn [ssl_pending]. rewrite length_skipn. lia. }
        exists out, (r :: recs), w'. rewrite Hrun, <- app_assoc. auto.
      * exists Undefined, [],
          (mkSsl (skipn 38 (ssl_pending w)) (ssl_errors w) None (ssl_sent w)).
        split.
        -- cbn [FeedBack]. unfold SSL_pending, feedback_buf_size.
           destruct (Z.geb_spec (Z.of_nat 38)
                       (Z.of_nat (length (ssl_pending w)))); [lia|].
           unfold SSL_read. rewrite Hw.
           rewrite length_firstn, Nat.min_l by lia.
           cbn [Nat.sub repeat]. rewrite !app_nil_r.
           unfold ASSERT_SSL. cbn [Z.leb Z.of_nat Z.compare]. rewrite Hr.
           reflexivity.
        -- right. split; [reflexivity|].
           destruct (little_endian t) eqn:Hle; [|reflexivity].
           destruct (FeedBack_decode_little_endian t
                       (firstn 38 (ssl_pending w)) Hle) as (r & Hsome & _).
           rewrite Hsome in Hr. discriminate Hr.
Qed.

(** X21: with a working transport the drain comes to an end on every
    host, within as many rounds as there are pending bytes, and one, and
    throws nothing: it returns, the records it decoded appended to those
    the vector held; or, on a big-endian host only, it stops where a
    length field above 32 takes [Hex2Str] past the end of [buf]. *)
Theorem X21_FeedBack_ends_on_working_transport (t : Target) (w : Ssl)
    (feedbacks : list ApnsFeedback) :
  ssl_fault w = None ->
  exists out recs w',
    FeedBack (S (length (ssl_pending w))) t w feedbacks
    = Some (out, feedbacks ++ recs, w')
    /\ (out = Returned tt \/ (out = Undefined /\ little_endian t = false)).
Proof.
  intros Hw. apply FeedBack_outcome; [exact Hw | lia].
Qed.

Lemma X21_FeedBack_ends_on_working_transport_witness :
  exists out recs w',
    FeedBack 40 ppc_linux
      (mkSsl (sample_feedback_buf ++ [Byte.x00]) [] None []) []
    = Some (out, [] ++ recs, w')
    /\ (out = Returned tt
        \/ (out = Undefined /\ little_endian ppc_linux = false)).
Proof.
  apply (X21_FeedBack_ends_on_working_transport ppc_linux
           (mkSsl (sample_feedback_buf ++ [Byte.x00]) [] None []) []).
  reflexivity.
Defined.

(** X22: when reads fail without queuing an error code while more than
    38 bytes count as pending, the drain never ends: each failed read goes
    unnoticed, a record of zeros is pushed and the loop starts over. *)
Theorem X22_FeedBack_spins_on_silent_read_failure (t : Target) (f : failure)
    (pending sent : list byte) (fuel : nat) (feedbacks : list ApnsFeedback) :
  (38 < length pending)%nat ->
  FeedBack fuel t (mkSsl pending [] (Some (f, [])) sent) feedbacks = None.
Proof.
  intros Hlen. revert feedbacks.
  induction fuel as [|n IH]; intros feedbacks; [reflexivity|].
  cbn [FeedBack]. unfold SSL_pending, feedback_buf_size. cbn [ssl_pending].
  destruct (Z.geb_spec (Z.of_nat 38) (Z.of_nat (length pending))); [lia|].
  unfold SSL_read, ASSERT_SSL, ERR_get_error.
  cbn [ssl_fault ssl_errors ssl_pending ssl_sent app length Nat.sub].
  replace (failure_ret f <=? 0) with true by (destruct f; reflexivity).
  cbn [Z.eqb].
  destruct (FeedBack_decode t (repeat Byte.x00 38)) as [r|] eqn:Hr.
  - apply IH.
  - destruct t as [[|] [|] bh]; vm_compute in Hr; discriminate.
Qed.

Lemma X22_FeedBack_spins_on_silent_read_failure_witness :
  FeedBack 1000 x86_64_linux
    (mkSsl (repeat Byte.x00 39) [] (Some (ReturnsNegative, [])) []) []
  = None.
Proof.
  apply (X22_FeedBack_spins_on_silent_read_failure x86_64_linux
           ReturnsNegative (repeat Byte.x00 39) [] 1000 []).
  cbn. lia.
Defined.

(** X23: when a read fails and a code is queued, [FeedBack] throws the
    SSL error of line 200 with the oldest code of the queue; the caller's
    vector keeps what it held and nothing is taken from the pending
    input. *)
Theorem X23_FeedBack_throws_on_failed_read (fuel : nat) (t : Target)
    (w : Ssl) (feedbacks : list ApnsFeedback) (f : failure)
    (codes : list Z) (code : Z) (rest : list Z) :
  (38 < length (ssl_pending w))%nat ->
  ssl_fault w = Some (f, codes) ->
  ssl_errors w ++ codes = code :: rest ->
  code <> 0 ->
  FeedBack (S fuel) t w feedbacks
  = Some (Thrown (SslError code 200), feedbacks,
          mkSsl (ssl_pending w) rest (ssl_fault w) (ssl_sent w)).
Proof.
  intros Hlen Hw He Hc. cbn [FeedBack]. unfold SSL_pending, feedback_buf_size.
  destruct (Z.of_nat 38 >=? Z.of_nat (length (ssl_pending w))) eqn:E.
  { rewrite Z.geb_leb in E. apply Z.leb_le in E. lia. }
  unfold SSL_read. rewrite Hw.
  unfold ASSERT_SSL, ERR_get_error.
  cbn [ssl_errors ssl_pending ssl_fault ssl_sent].
  rewrite He. apply Z.eqb_neq in Hc.
  destruct f; cbn [failure_ret Z.leb Z.compare]; rewrite Hc; reflexivity.
Qed.

Lemma X23_FeedBack_throws_on_failed_read_witness :
  FeedBack 1 x86_64_linux
    (mkSsl (repeat Byte.x00 39) [] (Some (ReturnsZero, [11])) [])
    [mkFeedback 1 0 []]
  = Some (Thrown (SslError 11 200), [mkFeedback 1 0 []],
          mkSsl (repeat Byte.x00 39) [] (Some (ReturnsZero, [11])) []).
Proof.
  apply (X23_FeedBack_throws_on_failed_read 0 x86_64_linux
           (mkSsl (repeat Byte.x00 39) [] (Some (ReturnsZero, [11])) [])
           [mkFeedback 1 0 []] ReturnsZero [11] 11 []).
  - cbn. lia.
  - reflexivity.
  - reflexivity.
  - discriminate.
Defined.

(** ** The constructor, Conn and the destructor *)

Lemma ssl_step_ok (lib : Library) (c : libcall) (line : Z) (w : Ssl) :
  lib_fails lib c = false -> ssl_step lib c line w = (None, true, w).
Proof. intros H. unfold ssl_step. now rewrite H. Qed.

Lemma ssl_step_loud (lib : Library) (c : libcall) (line : Z) (w : Ssl)
    (code : Z) (rest : list Z) :
  lib_fails lib c = true ->
  ssl_errors w ++ lib_codes lib c = code :: rest -> code <> 0 ->
  ssl_step lib c line w
  = (Some (SslError code line), false,
     mkSsl (ssl_pending w) rest (ssl_fault w) (ssl_sent w)).
Proof.
  intros H He Hc. unfold ssl_step, ASSERT_SSL, ERR_get_error.
  rewrite H. cbn [ssl_errors ssl_pending ssl_fault ssl_sent]. rewrite He.
  apply Z.eqb_neq in Hc. now rewrite Hc.
Qed.

Lemma ssl_step_silent (lib : Library) (c : libcall) (line : Z) (w : Ssl) :
  lib_fails lib c = true ->
  ssl_errors w = [] -> lib_codes lib c = [] ->
  ssl_step lib c line w = (None, false, w).
Proof.
  intros H He Hc. unfold ssl_step, ASSERT_SSL, ERR_get_error.
  rewrite H. cbn [ssl_errors ssl_pending ssl_fault ssl_sent].
  rewrite He, Hc. cbn [app Z.eqb]. destruct w; cbn in *; subst.
  reflexivity.
Qed.

(** A step that throws nothing leaves an empty queue empty, and tells
    the truth about the call when failures are loud. *)
Lemma ssl_step_quiet (lib : Library) (c : libcall) (line : Z) (w w' : Ssl)
    (ok : bool) :
  ssl_errors w = [] ->
  (lib_fails lib c = true ->
   exists code rest, lib_codes lib c = code :: rest /\ code <> 0) ->
  ssl_step lib c line w = (None, ok, w') ->
  lib_fails lib c = false /\ ok = true /\ w' = w.
Proof.
  intros He Hloud. destruct (lib_fails lib c) eqn:Hf.
  - destruct (Hloud eq_refl) as (code & rest & Hcodes & Hc).
    rewrite (ssl_step_loud lib c line w code rest Hf);
      [discriminate | rewrite He, Hcodes; reflexivity | exact Hc].
  - rewrite ssl_step_ok by exact Hf. intros [= <- <-]. auto.
Qed.

(** X24: when every failing OpenSSL call queues a code and the queue is
    empty at the start, the constructor returns only if each of the
    eleven calls succeeded; the object then holds context, session and
    socket, and the queue is still empty. *)
Theorem X24_constructed_means_every_call_succeeded (lib : Library)
    (w w' : Ssl) (a : ApnsObject) :
  ssl_errors w = [] ->
  (forall c, lib_fails lib c = true ->
             exists code rest, lib_codes lib c = code :: rest /\ code <> 0) ->
  Apns lib w = (Constructed a, w') ->
  (forall c, lib_fails lib c = false) /\ a = mkApns true true true /\ w' = w.
Proof.
  intros He Hloud. unfold Apns, Conn, ASSERT_SYSTEM.
  repeat
    match goal with
    | |- context [ssl_step lib ?c ?line ?w0] =>
        let e := fresh "e" in let ok := fresh "ok" in let w1 := fresh "w" in
        let E := fresh "E" in
        destruct (ssl_step lib c line w0) as [[e ok] w1] eqn:E;
        destruct e as [e|]; [discriminate|];
        apply (ssl_step_quiet lib c line w0 w1 ok) in E as (? & -> & ->);
        [| assumption | apply Hloud]
    | |- context [if lib_fails lib ?c then _ else _] =>
        destruct (lib_fails lib c) eqn:?; [discriminate|]
    end.
  cbn [negb ctx_ ssl_ sock_]. intros [= <- <-].
  repeat split. intros c. destruct c; assumption.
Qed.

Lemma X24_constructed_means_every_call_succeeded_witness :
  (forall c, lib_fails sound_library c = false)
  /\ mkApns true true true = mkApns true true true
  /\ healthy_session = healthy_session.
Proof.
  apply (X24_constructed_means_every_call_succeeded sound_library
           healthy_session healthy_session (mkApns true true true)).
  - reflexivity.
  - intros c H. discriminate H.
  - reflexivity.
Defined.

(** X25: with an empty queue and failures that queue no code, only the
    calls whose null result is passed on, and the three system calls, can
    stop the constructor: it returns a complete object even when the
    certificate or the key did not load, the key does not match, the
    descriptor could not be set or the handshake failed. *)
Theorem X25_silent_failures_still_construct (lib : Library) (w : Ssl) :
  ssl_errors w = [] ->
  (forall c, lib_codes lib c = []) ->
  lib_fails lib TLSv1_method = false ->
  lib_fails lib SSL_CTX_new = false ->
  lib_fails lib gethostbyname = false ->
  lib_fails lib socket = false ->
  lib_fails lib connect = false ->
  lib_fails lib SSL_new = false ->
  Apns lib w = (Constructed (mkApns true true true), w).
Proof.
  intros He Hcodes Hm Hctx Hhost Hsock Hconn Hnew.
  unfold Apns, Conn, ASSERT_SYSTEM.
  rewrite (ssl_step_ok lib TLSv1_method) by assumption.
  rewrite (ssl_step_ok lib SSL_CTX_new) by assumption.
  assert (Hany : forall c line,
             exists ok, ssl_step lib c line w = (None, ok, w)).
  { intros c line. destruct (lib_fails lib c) eqn:Hf.
    - exists false. now apply ssl_step_silent.
    - exists true. now apply ssl_step_ok. }
  destruct (Hany SSL_CTX_use_certificate_file 63) as [ok1 ->].
  destruct (Hany SSL_CTX_use_PrivateKey_file 64) as [ok2 ->].
  destruct (Hany SSL_CTX_check_private_key 65) as [ok3 ->].
  rewrite Hhost, Hsock, Hconn.
  rewrite (ssl_step_ok lib SSL_new) by assumption.
  destruct (Hany SSL_set_fd 99) as [ok4 ->].
  destruct (Hany SSL_connect 100) as [ok5 ->].
  reflexivity.
Qed.

Lemma X25_silent_failures_still_construct_witness :
  Apns (failing_library SSL_connect [] 0) healthy_session
  = (Constructed (mkApns true true true), healthy_session).
Proof.
  apply (X25_silent_failures_still_construct
           (failing_library SSL_connect [] 0) healthy_session);
    try reflexivity.
Defined.

(** X26: a failing system call always throws, whatever the error queue
    holds: a host that does not resolve throws from line 90, a socket that
    cannot be made from line 95, a connection that fails from line 96, each
    with [errno].  At the throw the object holds the context (and, at line
    96, the socket), which nothing releases. *)
Theorem X26_system_failures_always_throw (lib : Library) (w : Ssl) :
  lib_fails lib TLSv1_method = false ->
  lib_fails lib SSL_CTX_new = false ->
  lib_fails lib SSL_CTX_use_certificate_file = false ->
  lib_fails lib SSL_CTX_use_PrivateKey_file = false ->
  lib_fails lib SSL_CTX_check_private_key = false ->
  (lib_fails lib gethostbyname = true ->
   Apns lib w = (ConstructionThrew (SystemError (lib_errno lib) 90)
                   (mkApns true false false), w))
  /\ (lib_fails lib gethostbyname = false -> lib_fails lib socket = true ->
      Apns lib w = (ConstructionThrew (SystemError (lib_errno lib) 95)
                      (mkApns true false false), w))
  /\ (lib_fails lib gethostbyname = false -> lib_fails lib socket = false ->
      lib_fails lib connect = true ->
      Apns lib w = (ConstructionThrew (SystemError (lib_errno lib) 96)
                      (mkApns true false true), w)).
Proof.
  intros H1 H2 H3 H4 H5. unfold Apns, Conn, ASSERT_SYSTEM.
  rewrite !ssl_step_ok by assumption.
  repeat split.
  - intros ->. reflexivity.
  - intros -> ->. reflexivity.
  - intros -> -> ->. reflexivity.
Qed.

Lemma X26_system_failures_always_throw_witness :
  Apns (failing_library connect [] 111) (mkSsl [] [5] None [])
  = (ConstructionThrew (SystemError 111 96) (mkApns true false true),
     mkSsl [] [5] None []).
Proof.
  destruct (X26_system_failures_always_throw (failing_library connect [] 111)
              (mkSsl [] [5] None []) eq_refl eq_refl eq_refl eq_refl eq_refl)
    as (_ & _ & H).
  apply H; reflexivity.
Defined.

Lemma Apns_constructed_members (lib : Library) (w w' : Ssl) (a : ApnsObject) :
  Apns lib w = (Constructed a, w') -> a = mkApns true true true.
Proof.
  unfold Apns, Conn, ASSERT_SYSTEM.
  repeat
    (match goal with
     | |- context [ssl_step lib ?c ?line ?w0] =>
         destruct (ssl_step lib c line w0) as [[[?|] [|]] ?]
     | |- context [if lib_fails lib ?c then _ else _] =>
         destruct (lib_fails lib c)
     end; try discriminate);
    cbn [negb ctx_ ssl_ sock_]; intros [= <- _]; reflexivity.
Qed.

(** X27: an object whose constructor returned is released by the
    destructor in this order: shutdown and release of the session, close
    of the socket, release of the context; an object with no handle yet
    releases nothing. *)
Theorem X27_destructor_after_construction (lib : Library) (w w' : Ssl)
    (a : ApnsObject) :
  Apns lib w = (Constructed a, w') ->
  Apns_destructor a
  = [do_SSL_shutdown; do_SSL_free; do_close; do_SSL_CTX_free]
  /\ Apns_destructor (mkApns false false false) = [].
Proof.
  intros H. apply Apns_constructed_members in H. subst a. split; reflexivity.
Qed.

Lemma X27_destructor_after_construction_witness :
  Apns_destructor (mkApns true true true)
  = [do_SSL_shutdown; do_SSL_free; do_close; do_SSL_CTX_free]
  /\ Apns_destructor (mkApns false false false) = [].
Proof.
  apply (X27_destructor_after_construction sound_library healthy_session
           healthy_session (mkApns true true true)).
  reflexivity.
Defined.

(** X28: when the first call to fail is an OpenSSL call and it queues a
    code on an empty queue, the constructor throws the SSL error with that
    code and the line of the assertion behind the call; at the throw the
    object holds what the earlier calls acquired (the context after line
    59, the socket from line 98 on, the session after line 98), and
    nothing releases it. *)
Theorem X28_first_OpenSSL_failure_is_thrown (lib : Library) (w : Ssl)
    (c : libcall) (code : Z) (rest : list Z) :
  ssl_errors w = [] ->
  is_system_call c = false ->
  lib_fails lib c = true ->
  lib_codes lib c = code :: rest -> code <> 0 ->
  (forall d, (call_order d < call_order c)%nat -> lib_fails lib d = false) ->
  Apns lib w
  = (ConstructionThrew (OfSsl (SslError code (call_line c)))
       (mkApns (2 <=? call_order c)%nat (9 <=? call_order c)%nat
          (8 <=? call_order c)%nat),
     mkSsl (ssl_pending w) rest (ssl_fault w) (ssl_sent w)).
Proof.
  intros He Hsys Hf Hcodes Hc Hbefore.
  assert (Hq : ssl_errors w ++ lib_codes lib c = code :: rest)
    by (rewrite He, Hcodes; reflexivity).
  pose proof (Hbefore TLSv1_method) as B0.
  pose proof (Hbefore SSL_CTX_new) as B1.
  pose proof (Hbefore SSL_CTX_use_certificate_file) as B2.
  pose proof (Hbefore SSL_CTX_use_PrivateKey_file) as B3.
  pose proof (Hbefore SSL_CTX_check_private_key) as B4.
  pose proof (Hbefore gethostbyname) as B5.
  pose proof (Hbefore socket) as B6.
  pose proof (Hbefore connect) as B7.
  pose proof (Hbefore SSL_new) as B8.
  pose proof (Hbefore SSL_set_fd) as B9.
  clear Hbefore.
  destruct c; try discriminate Hsys; cbn [call_order call_line] in *;
    repeat match goal with
           | B : (?n < ?m)%nat -> _ |- _ =>
               first [ specialize (B ltac:(lia)) | clear B ]
           end;
    unfold Apns, Conn, ASSERT_SYSTEM;
    rewrite ?ssl_step_ok by assumption;
    repeat match goal with
           | B : lib_fails lib ?d = false |- context [lib_fails lib ?d] =>
               rewrite B
           end;
    cbn [negb ctx_ ssl_ sock_];
    rewrite (ssl_step_loud lib _ _ w code rest Hf Hq Hc); reflexivity.
Qed.

Lemma X28_first_OpenSSL_failure_is_thrown_witness :
  Apns (failing_library SSL_connect [336031996] 0) healthy_session
  = (ConstructionThrew (OfSsl (SslError 336031996 100))
       (mkApns true true true), healthy_session).
Proof.
  apply (X28_first_OpenSSL_failure_is_thrown
           (failing_library SSL_connect [336031996] 0) healthy_session
           SSL_connect 336031996 []); try reflexivity.
  - discriminate.
  - intros d Hd. destruct d; try reflexivity. cbn in Hd. lia.
Defined.

(** X29: [Conn] stores the port in network order on every host, after
    its conversion to 16 bits: a port outside 0..65535 is taken modulo
    65536 without any error. *)
Theorem X29_port_is_taken_modulo_65536 (t : Target) (port : Z) :
  Conn_sin_port t port = be_bytes 2 (port mod 65536)
  /\ Conn_sin_port t (port + 65536) = Conn_sin_port t port.
Proof.
  unfold Conn_sin_port. rewrite !store_htons. unfold be_bytes.
  rewrite (le_split_mod port 2), (le_split_mod (port + 65536) 2).
  change (2 ^ (Z.of_nat 2 * 8)) with 65536.
  replace ((port + 65536) mod 65536) with (port mod 65536)
    by (rewrite <- (Z.mul_1_l 65536) at 2; now rewrite Z.mod_add).
  split; reflexivity.
Qed.
